(** * markdown_to_gdoc: the markdown block parser and the request compiler

    A shallow embedding of [src/markdown_to_gdoc.py].  Python [str] values
    are sequences of Unicode code points, modelled as lists of [N]; Python
    integers are modelled as [Z]. *)

From Stdlib Require Import List ZArith NArith Lia Bool Ascii.
From Stdlib Require String QArith_base.
Import ListNotations String.StringSyntax.

Set Implicit Arguments.

(** ** Python strings *)

Module Py.

Definition char := N.
Definition str := list char.

Definition ch (a : ascii) : char := N_of_ascii a.

Fixpoint lit (s : String.string) : str :=
  match s with
  | String.EmptyString => []
  | String.String a s' => ch a :: lit s'
  end.

Definition len (s : str) : Z := Z.of_nat (length s).

(** [Py_UNICODE_ISSPACE]: the characters [str.strip()] removes and the
    class [\s] of a [str] pattern. *)
Local Open Scope N_scope.

Definition is_space (c : char) : bool :=
  ((0x09 <=? c) && (c <=? 0x0D)) || ((0x1C <=? c) && (c <=? 0x1F))
  || (c =? 0x20) || (c =? 0x85) || (c =? 0xA0) || (c =? 0x1680)
  || ((0x2000 <=? c) && (c <=? 0x200A)) || (c =? 0x2028) || (c =? 0x2029)
  || (c =? 0x202F) || (c =? 0x205F) || (c =? 0x3000).

(** [Py_UNICODE_ISLINEBREAK]: the line boundaries of [str.splitlines()]. *)
Definition is_linebreak (c : char) : bool :=
  ((0x0A <=? c) && (c <=? 0x0D)) || ((0x1C <=? c) && (c <=? 0x1E))
  || (c =? 0x85) || (c =? 0x2028) || (c =? 0x2029).

Definition LF : char := 0x0A.
Definition CR : char := 0x0D.

(** [s.lstrip(chars)] and [s.rstrip(chars)], the set [chars] given as a
    predicate. *)
Fixpoint lstrip_with (p : char -> bool) (s : str) : str :=
  match s with
  | [] => []
  | c :: s' => if p c then lstrip_with p s' else s
  end.

Definition rstrip_with (p : char -> bool) (s : str) : str :=
  rev (lstrip_with p (rev s)).

(** [s.strip()] *)
Definition strip (s : str) : str := rstrip_with is_space (lstrip_with is_space s).

Definition one_of (cs : str) (c : char) : bool := existsb (N.eqb c) cs.

(** [s.lstrip(" ")] and [s.rstrip("\n")] *)
Definition lstrip_chars (cs s : str) : str := lstrip_with (one_of cs) s.
Definition rstrip_chars (cs s : str) : str := rstrip_with (one_of cs) s.

Fixpoint startswith (s prefix : str) : bool :=
  match prefix, s with
  | [], _ => true
  | _ :: _, [] => false
  | a :: prefix', c :: s' => (c =? a) && startswith s' prefix'
  end.

Definition str_eqb (a b : str) : bool :=
  if list_eq_dec N.eq_dec a b then true else false.

(** [s.splitlines()]: [cur] is the line being read.  A line ends at a line
    boundary, ["\r\n"] counting as one boundary; the boundary is not part of
    the line, and text after the last boundary is a line only when it is not
    empty. *)
Fixpoint splitlines_from (cur s : str) : list str :=
  match s with
  | [] => match cur with [] => [] | _ :: _ => [cur] end
  | c :: s' =>
      if is_linebreak c then
        cur :: (if c =? CR
                then match s' with
                     | c' :: s'' =>
                         if c' =? LF then splitlines_from [] s''
                         else splitlines_from [] s'
                     | [] => splitlines_from [] s'
                     end
                else splitlines_from [] s')
      else splitlines_from (cur ++ [c]) s'
  end.

Definition splitlines (s : str) : list str := splitlines_from [] s.

(** ["".join(parts)] and [sep.join(parts)] *)
Definition join_empty (parts : list str) : str := concat parts.

Fixpoint join (sep : str) (parts : list str) : str :=
  match parts with
  | [] => []
  | [x] => x
  | x :: rest => x ++ sep ++ join sep rest
  end.

End Py.

Import Py.
Delimit Scope string_scope with string.
Arguments ch a%_char.
Arguments lit s%_string.

(** ** Regular expressions

    The fragment of [re] the program uses: literals, one-character classes,
    greedy repetition of a class, alternation and sequence, matched by
    backtracking with Python's priorities (greedy repetition first, left
    alternative first). *)

Module Re.

Local Open Scope N_scope.

Inductive regex : Type :=
| RChar (c : char)
| RClass (p : char -> bool)
| RStar (p : char -> bool)
| RPlus (p : char -> bool)
| RAlt (r1 r2 : regex)
| RSeq (r1 r2 : regex)
| REmpty.

Fixpoint rseq (rs : list regex) : regex :=
  match rs with
  | [] => REmpty
  | [r] => r
  | r :: rs' => RSeq r (rseq rs')
  end.

(** Greedy [p*]: take as many characters as possible, give one back at a
    time when the rest of the pattern, [k], fails. *)
Fixpoint star_k (p : char -> bool) (s : str) (k : str -> option str) : option str :=
  match s with
  | c :: s' =>
      if p c then
        match star_k p s' k with
        | Some rest => Some rest
        | None => k s
        end
      else k s
  | [] => k s
  end.

(** [rmatch r s k]: match [r] at the head of [s] and continue with [k] on
    what is left; the result is the text after the whole match. *)
Fixpoint rmatch (r : regex) (s : str) (k : str -> option str) : option str :=
  match r with
  | RChar a => match s with
               | c :: s' => if c =? a then k s' else None
               | [] => None
               end
  | RClass p => match s with
                | c :: s' => if p c then k s' else None
                | [] => None
                end
  | RStar p => star_k p s k
  | RPlus p => match s with
               | c :: s' => if p c then star_k p s' k else None
               | [] => None
               end
  | RAlt r1 r2 => match rmatch r1 s k with
                  | Some rest => Some rest
                  | None => rmatch r2 s k
                  end
  | RSeq r1 r2 => rmatch r1 s (fun s' => rmatch r2 s' k)
  | REmpty => k s
  end.

(** [re.match(r, s)]: a match at the start of [s]; [Some rest] gives the
    text after the match.  A leading [^] holds at the start of the string,
    so it is not part of [r]. *)
Definition re_match (r : regex) (s : str) : option str := rmatch r s Some.

Definition matches (r : regex) (s : str) : bool :=
  match re_match r s with Some _ => true | None => false end.

(** [re.sub("^" + r, "", s)]: without [re.MULTILINE] the [^] holds at
    offset 0 only, so at most the match at the start is replaced. *)
Definition re_sub_start (r : regex) (s : str) : str :=
  match re_match r s with
  | Some rest => rest
  | None => s
  end.

(** [r.finditer(s)] as the list of [(m.start(), m.end())]: the leftmost
    match, then the search resumes where it ended.  [pos] is the offset of
    the head of [s]; [skip] counts the characters of [s] still inside the
    previous match. *)
Fixpoint finditer_from (r : regex) (pos : Z) (skip : nat) (s : str) : list (Z * Z) :=
  match s with
  | [] =>
      match skip, re_match r [] with
      | O, Some _ => [(pos, pos)]
      | _, _ => []
      end
  | _ :: s' =>
      match skip with
      | S n => finditer_from r (pos + 1)%Z n s'
      | O =>
          match re_match r s with
          | Some rest =>
              let n := (length s - length rest)%nat in
              (pos, (pos + Z.of_nat n)%Z) :: finditer_from r (pos + 1)%Z (n - 1)%nat s'
          | None => finditer_from r (pos + 1)%Z 0%nat s'
          end
      end
  end.

Definition finditer (r : regex) (s : str) : list (Z * Z) := finditer_from r 0%Z 0%nat s.

End Re.

Import Re.

(** ** The data model *)

Inductive Kind : Type :=
| KH1 | KH2 | KH3 | KBullet | KCheckbox | KFooter | KP | KBlank.

Definition Kind_eq_dec (a b : Kind) : {a = b} + {a <> b}.
Proof. decide equality. Defined.

(** [class Block]; [level] defaults to 0 and [checked] to [False]. *)
Record Block : Type := mkBlock {
  kind : Kind;
  text : str;
  level : Z;
  checked : bool
}.

Definition Block_kt (k : Kind) (t : str) : Block := mkBlock k t 0 false.

(** One entry of [spans]: [{"block": b, "start": start, "end": end}]. *)
Record Span : Type := mkSpan {
  block : Block;
  start : Z;
  end_ : Z
}.

(** The request dictionaries of the Docs API, a key that a dictionary may
    lack as an [option]. *)
Record Range : Type := mkRange { startIndex : Z; endIndex : Z }.
Record Dimension : Type := mkDimension { magnitude : Z; unit : str }.
Record ParagraphStyle : Type := mkParagraphStyle {
  namedStyleType : option str;
  indentStart : option Dimension
}.
(** The colour components are the decimal literals of the source. *)
Record RgbColor : Type := mkRgbColor { red : QArith_base.Q; green : QArith_base.Q; blue : QArith_base.Q }.
Record TextStyle : Type := mkTextStyle {
  bold : option bool;
  italic : option bool;
  fontSize : option Dimension;
  foregroundColor : option RgbColor
}.

Inductive Request : Type :=
| insertText (index : Z) (txt : str)
| updateParagraphStyle (range : Range) (paragraphStyle : ParagraphStyle) (fields : str)
| updateTextStyle (range : Range) (textStyle : TextStyle) (fields : str)
| createParagraphBullets (range : Range) (bulletPreset : str).

(** ** parse_markdown *)

Definition truth (s : str) : bool :=
  match s with [] => false | _ :: _ => true end.

(** [^\s*-\s\[( |x|X)\]\s+] *)
Definition re_checkbox : regex :=
  rseq [RStar is_space; RChar (ch "-"); RClass is_space; RChar (ch "[");
        RAlt (RChar (ch " ")) (RAlt (RChar (ch "x")) (RChar (ch "X")));
        RChar (ch "]"); RPlus is_space].

(** [^\s*-\s\[(x|X)\]\s+] *)
Definition re_checked : regex :=
  rseq [RStar is_space; RChar (ch "-"); RClass is_space; RChar (ch "[");
        RAlt (RChar (ch "x")) (RChar (ch "X"));
        RChar (ch "]"); RPlus is_space].

(** [^\s*[-*]\s+] *)
Definition re_bullet : regex :=
  rseq [RStar is_space; RClass (one_of (lit "-*")); RPlus is_space].

(** [(len(raw) - len(raw.lstrip(" "))) // 2] *)
Definition indent_level (raw : str) : Z :=
  ((len raw - len (lstrip_chars (lit " ") raw)) / 2)%Z.

(** The body of the loop over the lines: every branch appends to [blocks]
    and goes on to the next line. *)
Definition parse_step (blocks : list Block) (line : str) : list Block :=
  let raw := rstrip_chars [LF] line in
  if negb (truth (strip raw)) then
    blocks ++ [Block_kt KBlank []]
  else if startswith raw (lit "# ") then
    blocks ++ [Block_kt KH1 (strip (skipn 2 raw))]
  else if startswith raw (lit "## ") then
    blocks ++ [Block_kt KH2 (strip (skipn 3 raw))]
  else if startswith raw (lit "### ") then
    blocks ++ [Block_kt KH3 (strip (skipn 4 raw))]
  else if matches re_checkbox raw then
    let checked := matches re_checked raw in
    let text := strip (re_sub_start re_checkbox raw) in
    let level := indent_level raw in
    blocks ++ [mkBlock KCheckbox text level checked]
  else if matches re_bullet raw then
    let text := strip (re_sub_start re_bullet raw) in
    let level := indent_level raw in
    blocks ++ [mkBlock KBullet text level false]
  else if startswith raw (lit "Meeting recorded by:") || startswith raw (lit "Duration:") then
    blocks ++ [Block_kt KFooter (strip raw)]
  else if str_eqb (strip raw) (lit "---") then
    blocks ++ [Block_kt KBlank []]
  else
    blocks ++ [Block_kt KP (strip raw)].

Definition parse_markdown (md_text : str) : list Block :=
  fold_left parse_step (splitlines md_text) [].

(** ** The request builders *)

Definition set_namedStyleType (v : str) (style : ParagraphStyle) : ParagraphStyle :=
  mkParagraphStyle (Some v) (indentStart style).
Definition set_indentStart (v : Dimension) (style : ParagraphStyle) : ParagraphStyle :=
  mkParagraphStyle (namedStyleType style) (Some v).

(** [_paragraph_style_request]; [if named_style_type:] holds for a string
    that is not empty. *)
Definition _paragraph_style_request (start end_ : Z)
    (named_style_type : option str) (indent_pt : option Z) : Request :=
  let style := mkParagraphStyle None None in
  let fields : list str := [] in
  let '(style, fields) :=
    match named_style_type with
    | Some ((_ :: _) as n) => (set_namedStyleType n style, fields ++ [lit "namedStyleType"])
    | _ => (style, fields)
    end in
  let '(style, fields) :=
    match indent_pt with
    | Some pt =>
        (set_indentStart (mkDimension pt (lit "PT")) style, fields ++ [lit "indentStart"])
    | None => (style, fields)
    end in
  updateParagraphStyle (mkRange start end_) style (join (lit ",") fields).

Definition set_bold (v : bool) (style : TextStyle) : TextStyle :=
  mkTextStyle (Some v) (italic style) (fontSize style) (foregroundColor style).
Definition set_italic (v : bool) (style : TextStyle) : TextStyle :=
  mkTextStyle (bold style) (Some v) (fontSize style) (foregroundColor style).
Definition set_fontSize (v : Dimension) (style : TextStyle) : TextStyle :=
  mkTextStyle (bold style) (italic style) (Some v) (foregroundColor style).
Definition set_foregroundColor (v : RgbColor) (style : TextStyle) : TextStyle :=
  mkTextStyle (bold style) (italic style) (fontSize style) (Some v).

(** [_text_style_request] *)
Definition _text_style_request (start end_ : Z) (bold italic : option bool)
    (font_size_pt : option Z) (rgb : option RgbColor) : Request :=
  let style := mkTextStyle None None None None in
  let fields : list str := [] in
  let '(style, fields) :=
    match bold with
    | Some b => (set_bold b style, fields ++ [lit "bold"])
    | None => (style, fields)
    end in
  let '(style, fields) :=
    match italic with
    | Some i => (set_italic i style, fields ++ [lit "italic"])
    | None => (style, fields)
    end in
  let '(style, fields) :=
    match font_size_pt with
    | Some pt => (set_fontSize (mkDimension pt (lit "PT")) style, fields ++ [lit "fontSize"])
    | None => (style, fields)
    end in
  let '(style, fields) :=
    match rgb with
    | Some c => (set_foregroundColor c style, fields ++ [lit "foregroundColor"])
    | None => (style, fields)
    end in
  updateTextStyle (mkRange start end_) style (join (lit ",") fields).

(** ** markdown_to_google_doc *)

Section Compiler.

(** [str.isalnum] on one character, a table of the Python runtime; with
    the underscore it makes the class [\w] of a [str] pattern. *)
Variable isalnum : char -> bool.

Definition is_word (c : char) : bool := isalnum c || (c =? ch "_")%N.

(** [MENTION_RE = re.compile(r"@\w+")] *)
Definition MENTION_RE : regex := rseq [RChar (ch "@"); RPlus is_word].

(** The variables of the first loop. *)
Record Layout : Type := mkLayout {
  cursor : Z;
  text_parts : list str;
  spans : list Span
}.

Local Open Scope Z_scope.

Definition layout_step (st : Layout) (b : Block) : Layout :=
  let start := cursor st in
  let line := text b in
  let text_parts := text_parts st ++ [line ++ [LF]] in
  let cursor := cursor st + (len line + 1) in
  let end_ := cursor in
  mkLayout cursor text_parts (spans st ++ [mkSpan b start end_]).

Definition layout (blocks : list Block) : Layout :=
  fold_left layout_step blocks (mkLayout 1 [] []).

Definition full_text (blocks : list Block) : str :=
  join_empty (text_parts (layout blocks)).

Definition footer_rgb : RgbColor :=
  mkRgbColor (QArith_base.Qmake 4 10) (QArith_base.Qmake 4 10) (QArith_base.Qmake 4 10).

(** Heading and footer styles: the body of the second loop. *)
Definition style_step (requests : list Request) (s : Span) : list Request :=
  let b := block s in
  let '(start, end_) := (start s, end_ s) in
  match kind b with
  | KH1 => requests ++ [_paragraph_style_request start end_ (Some (lit "HEADING_1")) None]
  | KH2 => requests ++ [_paragraph_style_request start end_ (Some (lit "HEADING_2")) None]
  | KH3 => requests ++ [_paragraph_style_request start end_ (Some (lit "HEADING_3")) None]
  | KFooter =>
      requests ++ [_text_style_request start end_ None (Some true) (Some 10) (Some footer_rgb)]
  | _ => requests
  end.

(** Bullets and checkbox bullets: the body of the third loop. *)
Definition list_step (requests : list Request) (s : Span) : list Request :=
  let b := block s in
  let '(start, end_) := (start s, end_ s) in
  match kind b with
  | KBullet =>
      let requests :=
        requests ++ [createParagraphBullets (mkRange start end_) (lit "BULLET_DISC_CIRCLE_SQUARE")] in
      if level b >? 0
      then requests ++ [_paragraph_style_request start end_ None (Some (18 * level b))]
      else requests
  | KCheckbox =>
      let requests :=
        requests ++ [createParagraphBullets (mkRange start end_) (lit "BULLET_CHECKBOX")] in
      if level b >? 0
      then requests ++ [_paragraph_style_request start end_ None (Some (18 * level b))]
      else requests
  | _ => requests
  end.

(** Mentions: the body of the last loop, with its inner loop over the
    matches. *)
Definition mention_step (requests : list Request) (s : Span) : list Request :=
  let b := block s in
  if negb (truth (text b)) then requests
  else
    fold_left
      (fun requests m =>
         let a := start s + fst m in
         let z := start s + snd m in
         requests ++ [_text_style_request a z (Some true) None None None])
      (finditer MENTION_RE (text b)) requests.

(** The requests built between the parse and the batch update. *)
Definition build_requests (blocks : list Block) : list Request :=
  let spans := spans (layout blocks) in
  let full_text := full_text blocks in
  let requests : list Request := [] in
  let requests := requests ++ [insertText 1 full_text] in
  let requests := fold_left style_step spans requests in
  let requests := fold_left list_step spans requests in
  let requests := fold_left mention_step spans requests in
  requests.

(** What the calls of the Docs client can raise: an [HttpError] (with its
    text [str(e)]), or anything else; [doc["documentId"]] raises a
    [KeyError] when the response has no such key; the function itself
    raises a [RuntimeError] chained to the [HttpError] it caught. *)
Inductive Exception : Type :=
| HttpError (e : str)
| KeyError (key : str)
| RuntimeError (message : str) (cause : Exception)
| OtherError (e : str).

(** The Docs service: [build("docs", "v1")] may raise;
    [documents().create(...).execute()] raises or gives the response, of
    which the function reads the ["documentId"], if it has one;
    [documents().batchUpdate(...).execute()] may raise. *)
Variable build : option Exception.
Variable documents_create : str -> Exception + option str.
Variable documents_batchUpdate : str -> list Request -> option Exception.

Inductive Outcome : Type :=
| Returned (doc_id doc_url : str)
| Raised (exc : Exception).

Definition markdown_to_google_doc (md_text title : str) : Outcome :=
  match build with
  | Some exc => Raised exc
  | None =>
      match documents_create title with
      | inl exc => Raised exc
      | inr None => Raised (KeyError (lit "documentId"))
      | inr (Some doc_id) =>
          let doc_url :=
            lit "https://docs.google.com/document/d/" ++ doc_id ++ lit "/edit" in
          let blocks := parse_markdown md_text in
          let requests := build_requests blocks in
          match documents_batchUpdate doc_id requests with
          | Some (HttpError e) =>
              Raised (RuntimeError (lit "Google API error: " ++ e) (HttpError e))
          | Some exc => Raised exc
          | None => Returned doc_id doc_url
          end
      end
  end.

End Compiler.

(** The ASCII part of [str.isalnum], for running the examples. *)
Definition ascii_alnum (c : char) : bool :=
  (((0x30 <=? c) && (c <=? 0x39)) || ((0x41 <=? c) && (c <=? 0x5A))
   || ((0x61 <=? c) && (c <=? 0x7A)))%N.

(** ** Derived notions used in the statements *)

(** The spans of [blocks] when the cursor stands at [c]. *)
Fixpoint spans_from (c : Z) (blocks : list Block) : list Span :=
  match blocks with
  | [] => []
  | b :: bs =>
      mkSpan b c (c + (len (text b) + 1)) :: spans_from (c + (len (text b) + 1)) bs
  end%Z.

(** The line a block contributes to the document. *)
Definition line_of (b : Block) : str := text b ++ [LF].

(** What each of the three styling loops adds for one span. *)
Definition style_ops (s : Span) : list Request := style_step [] s.
Definition list_ops (s : Span) : list Request := list_step [] s.
Definition mention_ops (isalnum : char -> bool) (s : Span) : list Request :=
  mention_step isalnum [] s.

(** The request [_text_style_request(a, z, bold=True)] builds. *)
Definition bold_request (a z : Z) : Request :=
  updateTextStyle (mkRange a z) (mkTextStyle (Some true) None None None) (lit "bold").

(** The request [_paragraph_style_request(start, end, indent_pt=m)] builds. *)
Definition indent_request (start end_ m : Z) : Request :=
  updateParagraphStyle (mkRange start end_)
    (mkParagraphStyle None (Some (mkDimension m (lit "PT")))) (lit "indentStart").

(** The four groups of requests. *)
Definition is_insert (r : Request) : bool :=
  match r with insertText _ _ => true | _ => false end.

Definition is_block_style (r : Request) : bool :=
  match r with
  | updateParagraphStyle _ st _ =>
      match namedStyleType st, indentStart st with
      | Some _, None => true
      | _, _ => false
      end
  | updateTextStyle _ st _ =>
      match bold st, italic st with
      | None, Some true => true
      | _, _ => false
      end
  | _ => false
  end.

Definition is_list_op (r : Request) : bool :=
  match r with
  | createParagraphBullets _ _ => true
  | updateParagraphStyle _ st _ =>
      match namedStyleType st, indentStart st with
      | None, Some _ => true
      | _, _ => false
      end
  | _ => false
  end.

Definition is_bold (r : Request) : bool :=
  match r with
  | updateTextStyle _ st _ =>
      match bold st with
      | Some true => true
      | _ => false
      end
  | _ => false
  end.

(** The indent, magnitude and unit, that [r] sets when [r] sets the
    indent of the paragraphs in [start, end_). *)
Definition indent_over (start end_ : Z) (r : Request) : option Dimension :=
  match r with
  | updateParagraphStyle rg st _ =>
      if ((startIndex rg =? start) && (endIndex rg =? end_))%Z
      then indentStart st
      else None
  | _ => None
  end.

(** The match of [-\s\[...\]\s+] (with [boxes] the characters allowed
    between the brackets) and of [[-*]\s+], read off the text [u] that
    follows the leading white space; the result is the text after the
    match. *)
Definition checkbox_after_indent (boxes u : str) : option str :=
  match u with
  | d :: sp :: lb :: c :: rb :: sp2 :: rest =>
      if ((d =? ch "-")%N && is_space sp && (lb =? ch "[")%N && one_of boxes c
          && (rb =? ch "]")%N && is_space sp2)%bool
      then Some (lstrip_with is_space rest)
      else None
  | _ => None
  end.

Definition bullet_after_indent (u : str) : option str :=
  match u with
  | m :: sp :: rest =>
      if (one_of (lit "-*") m && is_space sp)%bool
      then Some (lstrip_with is_space rest)
      else None
  | _ => None
  end.

(** The block the loop body appends for [line]. *)
Definition line_block (line : str) : Block :=
  last (parse_step [] line) (Block_kt KBlank []).

(** The tests of the loop body in the order it makes them, each with the
    kind it gives. *)
Definition is_blank (raw : str) : bool := negb (truth (strip raw)).
Definition is_footer (raw : str) : bool :=
  startswith raw (lit "Meeting recorded by:") || startswith raw (lit "Duration:").
Definition is_rule (raw : str) : bool := str_eqb (strip raw) (lit "---").

Definition patterns : list ((str -> bool) * Kind) :=
  [ (is_blank, KBlank);
    (fun raw => startswith raw (lit "# "), KH1);
    (fun raw => startswith raw (lit "## "), KH2);
    (fun raw => startswith raw (lit "### "), KH3);
    (matches re_checkbox, KCheckbox);
    (matches re_bullet, KBullet);
    (is_footer, KFooter);
    (is_rule, KBlank);
    (fun _ => true, KP) ].

Definition first_match (raw : str) : option Kind :=
  option_map snd (find (fun t => fst t raw) patterns).

(** The character between the brackets of a checkbox line: the fourth
    one after the leading white space. *)
Definition bracket_char (raw : str) : char :=
  nth 3 (lstrip_with is_space raw) 0%N.

(** Two blocks to run the compiler on: a nested bullet and a heading. *)
Definition sample_blocks : list Block :=
  [mkBlock KBullet (lit "nested @bob") 1 false; Block_kt KH1 (lit "Title")].

(** The reading of the specification's reconstruction: a block is written
    back as the canonical marker of its kind (two spaces per level before a
    list marker; a footer's prefix is still in its text) followed by its
    text, and every line is ended by a newline. *)
Definition spec_marker (b : Block) : str :=
  match kind b with
  | KH1 => lit "# "
  | KH2 => lit "## "
  | KH3 => lit "### "
  | KBullet => repeat (ch " ") (2 * Z.to_nat (level b)) ++ lit "- "
  | KCheckbox =>
      repeat (ch " ") (2 * Z.to_nat (level b))
      ++ (if checked b then lit "- [x] " else lit "- [ ] ")
  | KFooter | KP | KBlank => []
  end.

Definition spec_reconstruct_line (b : Block) : str := spec_marker b ++ text b.

Definition spec_reconstruct (blocks : list Block) : str :=
  concat (map (fun b => spec_reconstruct_line b ++ [LF]) blocks).

(** The blocks whose text alone does not read as another kind: a paragraph
    whose text starts with no heading or footer prefix, a bullet whose text
    does not start with a checkbox bracket. *)
Definition keeps_kind (b : Block) : bool :=
  match kind b with
  | KP =>
      negb (startswith (text b) (lit "# ") || startswith (text b) (lit "## ")
            || startswith (text b) (lit "### ") || is_footer (text b))
  | KBullet => negb (matches re_checkbox (lit "- " ++ text b))
  | _ => true
  end.

Definition no_linebreak (s : str) : bool := forallb (fun c => negb (is_linebreak c)) s.

(** A continuation of the matcher keeps [q] when what it returns has only
    characters with [q] whenever its argument has. *)
Definition keeps (q : char -> bool) (k : str -> option str) : Prop :=
  forall s t, forallb q s = true -> k s = Some t -> forallb q t = true.

(** ** Notions for the further properties *)

(** A block with its [checked] flag replaced. *)
Definition with_checked (f : Block -> bool) (b : Block) : Block :=
  mkBlock (kind b) (text b) (level b) (f b).

(** The half-open range a styling request applies to. *)
Definition request_range (r : Request) : option (Z * Z) :=
  match r with
  | insertText _ _ => None
  | updateParagraphStyle rg _ _ => Some (startIndex rg, endIndex rg)
  | updateTextStyle rg _ _ => Some (startIndex rg, endIndex rg)
  | createParagraphBullets rg _ => Some (startIndex rg, endIndex rg)
  end.

(** The keys a style dictionary has, in the order the builders add them. *)
Definition paragraph_style_keys (st : ParagraphStyle) : list str :=
  (match namedStyleType st with Some _ => [lit "namedStyleType"] | None => [] end)
  ++ (match indentStart st with Some _ => [lit "indentStart"] | None => [] end).

Definition text_style_keys (st : TextStyle) : list str :=
  (match bold st with Some _ => [lit "bold"] | None => [] end)
  ++ (match italic st with Some _ => [lit "italic"] | None => [] end)
  ++ (match fontSize st with Some _ => [lit "fontSize"] | None => [] end)
  ++ (match foregroundColor st with Some _ => [lit "foregroundColor"] | None => [] end).

(** The field mask of a request names exactly the keys of its style, and
    names at least one. *)
Definition mask_names_keys (r : Request) : Prop :=
  match r with
  | updateParagraphStyle _ st fields =>
      fields = join (lit ",") (paragraph_style_keys st) /\ paragraph_style_keys st <> []
  | updateTextStyle _ st fields =>
      fields = join (lit ",") (text_style_keys st) /\ text_style_keys st <> []
  | _ => True
  end.

(** The named style of [r] when [r] sets one on the paragraphs of
    [start, end_). *)
Definition named_style_over (start end_ : Z) (r : Request) : option str :=
  match r with
  | updateParagraphStyle rg st _ =>
      if ((startIndex rg =? start) && (endIndex rg =? end_))%Z
      then namedStyleType st
      else None
  | _ => None
  end.

Definition heading_style (k : Kind) : option str :=
  match k with
  | KH1 => Some (lit "HEADING_1")
  | KH2 => Some (lit "HEADING_2")
  | KH3 => Some (lit "HEADING_3")
  | _ => None
  end.

(** A text with every newline written as carriage return, newline. *)
Definition to_crlf (s : str) : str :=
  flat_map (fun c => if (c =? LF)%N then [CR; LF] else [c]) s.

(** The preset of [r] when [r] makes a list of the paragraphs in
    [start, end_). *)
Definition bullets_over (start end_ : Z) (r : Request) : option str :=
  match r with
  | createParagraphBullets rg preset =>
      if ((startIndex rg =? start) && (endIndex rg =? end_))%Z
      then Some preset
      else None
  | _ => None
  end.

Definition list_preset (k : Kind) : option str :=
  match k with
  | KBullet => Some (lit "BULLET_DISC_CIRCLE_SQUARE")
  | KCheckbox => Some (lit "BULLET_CHECKBOX")
  | _ => None
  end.

(** The style of [r] when [r] is a text style over exactly [start, end_). *)
Definition text_style_over (start end_ : Z) (r : Request) : option TextStyle :=
  match r with
  | updateTextStyle rg st _ =>
      if ((startIndex rg =? start) && (endIndex rg =? end_))%Z
      then Some st
      else None
  | _ => None
  end.

(** An occurrence of the mention pattern in [t] from offset [a] to offset
    [z]: an [@] at [a], followed by one or more word characters up to [z],
    and no word character at [z]. *)
Definition mention_at (isalnum : char -> bool) (t : str) (a z : Z) : Prop :=
  exists pre w rest,
    t = pre ++ ch "@" :: w ++ rest /\
    a = len pre /\ z = (a + 1 + len w)%Z /\
    w <> [] /\ forallb (is_word isalnum) w = true /\
    match rest with [] => True | c :: _ => is_word isalnum c = false end.

(** The reading of the specification's reconstruction with the original
    markers: what the parser took off in front of the text of a heading or
    of a list item (the prefix, or the text the list pattern matched) is
    put back in front of the block's text; a footer's prefix is still in
    its text.  Every line is ended by a newline. *)
Definition spec_original_marker (line : str) : str :=
  let raw := rstrip_chars [LF] line in
  match kind (line_block line) with
  | KH1 => firstn 2 raw
  | KH2 => firstn 3 raw
  | KH3 => firstn 4 raw
  | KCheckbox => firstn (length raw - length (re_sub_start re_checkbox raw)) raw
  | KBullet => firstn (length raw - length (re_sub_start re_bullet raw)) raw
  | KFooter | KP | KBlank => []
  end.

Definition spec_rewrite_line (line : str) : str :=
  spec_original_marker line ++ text (line_block line).

Definition spec_rewrite (md_text : str) : str :=
  concat (map (fun line => spec_rewrite_line line ++ [LF]) (splitlines md_text)).

(** The paragraphs whose text alone does not read as a heading or a
    footer. *)
Definition paragraph_keeps_kind (b : Block) : bool :=
  match kind b with
  | KP =>
      negb (startswith (text b) (lit "# ") || startswith (text b) (lit "## ")
            || startswith (text b) (lit "### ") || is_footer (text b))
  | _ => true
  end.

(** * Properties *)

(** ** Loops that only append *)

Section Appending.

Variables (A B : Type) (step : list B -> A -> list B) (out : A -> list B).
Hypothesis step_appends : forall acc x, step acc x = acc ++ out x.

Lemma fold_left_appends (l : list A) (acc : list B) :
  fold_left step l acc = acc ++ flat_map out l.
Proof.
  revert acc; induction l as [|x l IH]; intros acc; simpl.
  - now rewrite app_nil_r.
  - now rewrite IH, step_appends, <- app_assoc.
Qed.

End Appending.

Lemma flat_map_singleton (A B : Type) (f : A -> B) (l : list A) :
  flat_map (fun x => [f x]) l = map f l.
Proof. induction l as [|x l IH]; simpl; congruence. Qed.

(** ** The layout loop *)

Section LayoutFacts.

Local Open Scope Z_scope.

Lemma layout_fold (blocks : list Block) (st : Layout) :
  fold_left layout_step blocks st =
  mkLayout (fold_left (fun c b => c + (len (text b) + 1)) blocks (cursor st))
           (text_parts st ++ map line_of blocks)
           (spans st ++ spans_from (cursor st) blocks).
Proof.
  revert st; induction blocks as [|b bs IH]; intros st; simpl.
  - destruct st; simpl; now rewrite !app_nil_r.
  - rewrite IH; simpl. unfold line_of at 2.
    now rewrite <- !app_assoc.
Qed.

Lemma spans_layout (blocks : list Block) :
  spans (layout blocks) = spans_from 1 blocks.
Proof. unfold layout; now rewrite layout_fold. Qed.

Lemma text_parts_layout (blocks : list Block) :
  text_parts (layout blocks) = map line_of blocks.
Proof. unfold layout; now rewrite layout_fold. Qed.

Lemma len_nonneg (s : str) : 0 <= len s.
Proof. unfold len; lia. Qed.

Lemma spans_from_blocks (c : Z) (blocks : list Block) :
  map block (spans_from c blocks) = blocks.
Proof.
  revert c; induction blocks as [|b bs IH]; intros c; simpl; [easy|].
  now rewrite IH.
Qed.

Lemma spans_from_width (c : Z) (blocks : list Block) (s : Span) :
  In s (spans_from c blocks) -> end_ s - start s = len (text (block s)) + 1.
Proof.
  revert c; induction blocks as [|b bs IH]; intros c; simpl; [easy|].
  intros [<-|H]; simpl; [lia | eauto].
Qed.

Lemma spans_from_lower (c : Z) (blocks : list Block) (s : Span) :
  In s (spans_from c blocks) -> c <= start s.
Proof.
  revert c; induction blocks as [|b bs IH]; intros c; simpl; [easy|].
  intros [<-|H]; simpl; [lia|].
  apply IH in H. pose proof (len_nonneg (text b)). lia.
Qed.

Lemma spans_from_adjacent (c : Z) (blocks : list Block) (i : nat) (s s' : Span) :
  nth_error (spans_from c blocks) i = Some s ->
  nth_error (spans_from c blocks) (S i) = Some s' ->
  end_ s = start s'.
Proof.
  revert c i; induction blocks as [|b bs IH]; intros c i; simpl.
  - now destruct i.
  - destruct i as [|i].
    + simpl. intros [= <-]. destruct bs as [|b' bs]; simpl; [easy|].
      now intros [= <-].
    + simpl. apply IH.
Qed.

(** Two spans of one layout that start at the same offset are the same
    entry: every span is at least one character wide. *)
Lemma spans_from_start_inj (c : Z) (blocks : list Block) (s s' : Span) :
  In s (spans_from c blocks) -> In s' (spans_from c blocks) ->
  start s = start s' -> s = s'.
Proof.
  revert c; induction blocks as [|b bs IH]; intros c; simpl; [easy|].
  pose proof (len_nonneg (text b)).
  intros [<-|H1] [<-|H2]; simpl; intros E.
  - easy.
  - apply spans_from_lower in H2. lia.
  - apply spans_from_lower in H1. lia.
  - eauto.
Qed.

End LayoutFacts.

(** ** The styling loops *)

Section Passes.

Variable isalnum : char -> bool.

Lemma style_step_appends (acc : list Request) (s : Span) :
  style_step acc s = acc ++ style_ops s.
Proof.
  unfold style_ops, style_step; destruct (kind (block s)); simpl;
    now rewrite ?app_nil_r.
Qed.

Lemma list_step_appends (acc : list Request) (s : Span) :
  list_step acc s = acc ++ list_ops s.
Proof.
  unfold list_ops, list_step; destruct (kind (block s)); simpl;
    rewrite ?app_nil_r; try reflexivity;
    destruct (level (block s) >? 0)%Z; simpl; now rewrite <- ?app_assoc.
Qed.

Lemma mention_ops_matches (s : Span) :
  mention_ops isalnum s =
  map (fun m => bold_request (start s + fst m) (start s + snd m))
      (finditer (MENTION_RE isalnum) (text (block s))).
Proof.
  unfold mention_ops, mention_step.
  destruct (text (block s)) as [|c t] eqn:E; simpl negb; cbv iota.
  - reflexivity.
  - rewrite fold_left_appends
      with (out := fun m => [bold_request (start s + fst m) (start s + snd m)])
      by reflexivity.
    simpl. apply flat_map_singleton.
Qed.

Lemma mention_step_appends (acc : list Request) (s : Span) :
  mention_step isalnum acc s = acc ++ mention_ops isalnum s.
Proof.
  unfold mention_ops, mention_step.
  destruct (negb (truth (text (block s)))); [now rewrite app_nil_r|].
  now rewrite !fold_left_appends
    with (out := fun m => [_text_style_request (start s + fst m) (start s + snd m)
                             (Some true) None None None]).
Qed.

(** The request list, group by group. *)
Lemma build_requests_groups (blocks : list Block) :
  build_requests isalnum blocks =
  insertText 1 (full_text blocks)
    :: flat_map style_ops (spans_from 1 blocks)
    ++ flat_map list_ops (spans_from 1 blocks)
    ++ flat_map (mention_ops isalnum) (spans_from 1 blocks).
Proof.
  unfold build_requests.
  rewrite (fold_left_appends _ _ mention_step_appends).
  rewrite (fold_left_appends _ _ list_step_appends).
  rewrite (fold_left_appends _ _ style_step_appends).
  rewrite spans_layout. simpl. now rewrite <- app_assoc.
Qed.

Lemma style_ops_group (s : Span) : forallb is_block_style (style_ops s) = true.
Proof. unfold style_ops, style_step; now destruct (kind (block s)). Qed.

Lemma list_ops_group (s : Span) : forallb is_list_op (list_ops s) = true.
Proof.
  unfold list_ops, list_step; destruct (kind (block s)); try reflexivity;
    now destruct (level (block s) >? 0)%Z.
Qed.

Lemma mention_ops_group (s : Span) : forallb is_bold (mention_ops isalnum s) = true.
Proof.
  rewrite mention_ops_matches.
  induction (finditer (MENTION_RE isalnum) (text (block s))); simpl; auto.
Qed.

End Passes.

Section Groups.

Variables (A B : Type) (p q : B -> bool).

Lemma forallb_flat_map (f : A -> list B) (l : list A) :
  (forall x, forallb p (f x) = true) -> forallb p (flat_map f l) = true.
Proof.
  intros H; induction l as [|x l IH]; simpl; [easy|].
  now rewrite forallb_app, H, IH.
Qed.

Lemma filter_none (l : list B) :
  (forall r, p r = true -> q r = false) ->
  forallb p l = true -> filter q l = [].
Proof.
  intros H; induction l as [|r l IH]; simpl; [easy|].
  intros [Hr Hl]%andb_prop. now rewrite (H _ Hr), IH.
Qed.

Lemma filter_all (l : list B) : forallb p l = true -> filter p l = l.
Proof.
  induction l as [|r l IH]; simpl; [easy|].
  intros [Hr Hl]%andb_prop. now rewrite Hr, IH.
Qed.

End Groups.

Lemma block_style_not_insert r : is_block_style r = true -> is_insert r = false.
Proof. now destruct r. Qed.
Lemma list_op_not_insert r : is_list_op r = true -> is_insert r = false.
Proof. now destruct r. Qed.
Lemma bold_not_insert r : is_bold r = true -> is_insert r = false.
Proof. now destruct r. Qed.
Lemma block_style_not_bold r : is_block_style r = true -> is_bold r = false.
Proof.
  destruct r as [| | ? [[[|]|] ? ? ?] ?|]; simpl; try easy.
Qed.
Lemma list_op_not_bold r : is_list_op r = true -> is_bold r = false.
Proof. now destruct r. Qed.

(** ** The compiler's claims *)

Section CompilerClaims.

Variable isalnum : char -> bool.

Local Open Scope Z_scope.

(** C4.  The spans follow the blocks one for one and in order; the first
    span starts at offset 1; each span ends where the next one starts; and
    every span, a blank block's too, is as long as its block's text plus the
    line terminator. *)
Theorem spans_contiguous (blocks : list Block) :
  let ss := spans (layout blocks) in
  map block ss = blocks /\
  (forall s, nth_error ss 0 = Some s -> start s = 1) /\
  (forall i s s', nth_error ss i = Some s -> nth_error ss (S i) = Some s' ->
                  end_ s = start s') /\
  (forall s, In s ss -> end_ s - start s = len (text (block s)) + 1).
Proof.
  cbv zeta. rewrite spans_layout. repeat split.
  - apply spans_from_blocks.
  - destruct blocks; simpl; [easy|]. now intros s [= <-].
  - apply spans_from_adjacent.
  - apply spans_from_width.
Qed.

(** C5.  The text the compiler assembles, which is the text of its
    insert-text request, is the concatenation in order of every block's
    text followed by the line terminator. *)
Theorem full_text_roundtrip (blocks : list Block) :
  full_text blocks = concat (map (fun b => text b ++ [LF]) blocks) /\
  hd_error (build_requests isalnum blocks) =
    Some (insertText 1 (concat (map (fun b => text b ++ [LF]) blocks))).
Proof.
  assert (E : full_text blocks = concat (map (fun b => text b ++ [LF]) blocks)).
  { unfold full_text, join_empty. now rewrite text_parts_layout. }
  split; [exact E|].
  now rewrite build_requests_groups, E.
Qed.

(** C6.  For blocks that are not empty the request list is the one
    insert-text request, then the heading and footer styles, then the list
    structuring and indent requests, then the bold requests of the
    mentions; no other request of the list inserts text. *)
Theorem requests_in_order (blocks : list Block) :
  blocks <> [] ->
  let ss := spans (layout blocks) in
  let styles := flat_map style_ops ss in
  let lists := flat_map list_ops ss in
  let mentions := flat_map (mention_ops isalnum) ss in
  build_requests isalnum blocks
    = insertText 1 (full_text blocks) :: styles ++ lists ++ mentions /\
  forallb is_block_style styles = true /\
  forallb is_list_op lists = true /\
  forallb is_bold mentions = true /\
  filter is_insert (build_requests isalnum blocks) = [insertText 1 (full_text blocks)].
Proof.
  intros _. cbv zeta. rewrite spans_layout, build_requests_groups.
  pose proof (forallb_flat_map is_block_style style_ops (spans_from 1 blocks)
                style_ops_group) as Hs.
  pose proof (forallb_flat_map is_list_op list_ops (spans_from 1 blocks)
                list_ops_group) as Hl.
  pose proof (forallb_flat_map is_bold (mention_ops isalnum) (spans_from 1 blocks)
                (mention_ops_group isalnum)) as Hm.
  repeat split; try assumption.
  simpl. rewrite !filter_app.
  rewrite (filter_none is_block_style is_insert _ block_style_not_insert Hs).
  rewrite (filter_none is_list_op is_insert _ list_op_not_insert Hl).
  now rewrite (filter_none is_bold is_insert _ bold_not_insert Hm).
Qed.

Lemma style_ops_no_indent (s : Span) (a z : Z) (r : Request) :
  In r (style_ops s) -> indent_over a z r = None.
Proof.
  unfold style_ops, style_step; destruct (kind (block s)); simpl;
    try easy; intros [<-|[]]; simpl; try reflexivity;
    match goal with |- (if ?c then _ else _) = _ => now destruct c end.
Qed.

Lemma mention_ops_no_indent (s : Span) (a z : Z) (r : Request) :
  In r (mention_ops isalnum s) -> indent_over a z r = None.
Proof.
  rewrite mention_ops_matches, in_map_iff. now intros (m & <- & _).
Qed.

Lemma list_ops_indent (s : Span) (a z : Z) (d : Dimension) (r : Request) :
  In r (list_ops s) -> indent_over a z r = Some d ->
  a = start s /\ level (block s) > 0 /\
  d = mkDimension (18 * level (block s)) (lit "PT").
Proof.
  unfold list_ops, list_step; destruct (kind (block s)); simpl; try easy;
    destruct (level (block s) >? 0) eqn:L; simpl;
    intros H; repeat destruct H as [<-|H]; try easy; simpl;
    destruct (start s =? a) eqn:Ea; simpl; try easy;
    destruct (end_ s =? z) eqn:Ez; simpl; try easy;
    intros [= <-]; (split; [lia|split; [lia|reflexivity]]).
Qed.

(** C8.  For the span of a bullet or checkbox block, the request list has a
    request that sets the indent of the span's range exactly when the
    block's level is above 0, and the indent is then 18 times the level, in
    points (the unit PT). *)
Theorem indent_iff_nested (blocks : list Block) (s : Span) (d : Dimension) :
  In s (spans (layout blocks)) ->
  kind (block s) = KBullet \/ kind (block s) = KCheckbox ->
  (exists r, In r (build_requests isalnum blocks) /\
             indent_over (start s) (end_ s) r = Some d)
  <-> level (block s) > 0 /\
      d = mkDimension (18 * level (block s)) (lit "PT").
Proof.
  rewrite spans_layout, build_requests_groups. intros Hs Hk. split.
  - intros (r & Hr & Hi). simpl in Hr.
    rewrite !in_app_iff, !in_flat_map in Hr.
    destruct Hr as [<-|[(s' & _ & H)|[(s' & Hs' & H)|(s' & _ & H)]]].
    + discriminate.
    + now rewrite (style_ops_no_indent _ _ _ _ H) in Hi.
    + destruct (list_ops_indent _ _ _ _ H Hi) as (Ea & Hl & Hm).
      assert (s = s') by (eapply spans_from_start_inj; eauto).
      subst s'. easy.
    + now rewrite (mention_ops_no_indent _ _ _ _ H) in Hi.
  - intros (Hl & ->).
    exists (indent_request (start s) (end_ s) (18 * level (block s))). split.
    + right. rewrite !in_app_iff, !in_flat_map. right; left.
      exists s. split; [assumption|].
      unfold list_ops, list_step.
      assert (L : (level (block s) >? 0) = true) by lia.
      destruct Hk as [-> | ->]; rewrite L; simpl; auto.
    + simpl. now rewrite !Z.eqb_refl.
Qed.

End CompilerClaims.

(** ** Stripping *)

Lemma forallb_rev (A : Type) (f : A -> bool) (l : list A) :
  forallb f (rev l) = forallb f l.
Proof.
  induction l as [|x l IH]; simpl; [easy|].
  rewrite forallb_app, IH. simpl. rewrite andb_true_r. apply andb_comm.
Qed.

Section Strip.

Variable p : char -> bool.

Lemma lstrip_with_app (a b : str) :
  lstrip_with p (a ++ b) =
  if forallb p a then lstrip_with p b else lstrip_with p a ++ b.
Proof.
  induction a as [|c a IH]; simpl; [easy|].
  destruct (p c); simpl; [exact IH | reflexivity].
Qed.

Lemma lstrip_with_all (s : str) : forallb p s = true -> lstrip_with p s = [].
Proof.
  induction s as [|c s IH]; simpl; [easy|].
  destruct (p c); simpl; [exact IH | discriminate].
Qed.

Lemma lstrip_with_nil_all (s : str) : lstrip_with p s = [] -> forallb p s = true.
Proof.
  induction s as [|c s IH]; simpl; [easy|].
  destruct (p c); simpl; [exact IH | discriminate].
Qed.

Lemma lstrip_with_split (s : str) :
  exists a, s = a ++ lstrip_with p s /\ forallb p a = true.
Proof.
  induction s as [|c s (a & E & Ha)]; simpl.
  - now exists [].
  - destruct (p c) eqn:Hc.
    + exists (c :: a); simpl. rewrite Hc, Ha. now rewrite E at 1.
    + now exists [].
Qed.

Lemma lstrip_with_head (s : str) :
  match lstrip_with p s with [] => True | c :: _ => p c = false end.
Proof.
  induction s as [|c s IH]; simpl; [easy|].
  destruct (p c) eqn:Hc; [exact IH | exact Hc].
Qed.

Lemma rstrip_with_nil : rstrip_with p [] = [].
Proof. reflexivity. Qed.

(** [rstrip] read from the left. *)
Lemma rstrip_with_cons (c : char) (s : str) :
  rstrip_with p (c :: s) =
  if p c && forallb p s then [] else c :: rstrip_with p s.
Proof.
  unfold rstrip_with; simpl. rewrite lstrip_with_app, forallb_rev.
  destruct (forallb p s) eqn:Hs; simpl.
  - rewrite andb_true_r. rewrite lstrip_with_all by now rewrite forallb_rev.
    now destruct (p c).
  - rewrite andb_false_r, rev_app_distr. reflexivity.
Qed.

Lemma rstrip_with_all (s : str) : forallb p s = true -> rstrip_with p s = [].
Proof.
  intros H. unfold rstrip_with. rewrite lstrip_with_all; [easy|].
  now rewrite forallb_rev.
Qed.

Lemma rstrip_with_nil_all (s : str) : rstrip_with p s = [] -> forallb p s = true.
Proof.
  induction s as [|c s IH]; [easy|].
  rewrite rstrip_with_cons. simpl.
  destruct (p c && forallb p s) eqn:E; [now intros _ | discriminate].
Qed.

Lemma rstrip_with_split (s : str) :
  exists w, s = rstrip_with p s ++ w /\ forallb p w = true.
Proof.
  induction s as [|c s (w & E & Hw)].
  - now exists [].
  - rewrite rstrip_with_cons. destruct (p c && forallb p s) eqn:H.
    + exists (c :: s). now split.
    + exists w. split; [|exact Hw]. simpl. now rewrite <- E.
Qed.

Lemma rstrip_with_app_keep (a : str) (c : char) (b : str) :
  p c = false ->
  rstrip_with p (a ++ c :: b) = a ++ c :: rstrip_with p b.
Proof.
  intros Hc. induction a as [|x a IH]; simpl.
  - rewrite rstrip_with_cons, Hc. reflexivity.
  - rewrite rstrip_with_cons, IH, forallb_app. simpl. rewrite Hc. simpl.
    now rewrite !andb_false_r.
Qed.

Lemma rstrip_with_fix (s : str) (c : char) :
  p c = false -> rstrip_with p (s ++ [c]) = s ++ [c].
Proof. intros Hc. now rewrite rstrip_with_app_keep. Qed.

(** What [rstrip] leaves is empty or ends with a character it keeps. *)
Lemma rstrip_with_last (s : str) :
  rstrip_with p s = [] \/
  exists t c, rstrip_with p s = t ++ [c] /\ p c = false.
Proof.
  unfold rstrip_with. pose proof (lstrip_with_head (rev s)) as H.
  destruct (lstrip_with p (rev s)) as [|c t]; [now left|].
  right. exists (rev t), c. now split.
Qed.

Lemma rstrip_with_idem (s : str) :
  rstrip_with p (rstrip_with p s) = rstrip_with p s.
Proof.
  destruct (rstrip_with_last s) as [-> | (t & c & -> & Hc)]; [easy|].
  now apply rstrip_with_fix.
Qed.

Lemma rstrip_with_keeps_head (c : char) (s : str) :
  p c = false -> rstrip_with p (c :: s) = c :: rstrip_with p s.
Proof. intros Hc. now rewrite rstrip_with_cons, Hc. Qed.

End Strip.

Lemma strip_blank (s : str) : truth (strip s) = false <-> forallb is_space s = true.
Proof.
  unfold strip. split.
  - intros H. destruct (rstrip_with is_space (lstrip_with is_space s)) eqn:E; [|easy].
    apply rstrip_with_nil_all in E.
    destruct (lstrip_with_split is_space s) as (a & Es & Ha).
    rewrite Es, forallb_app, Ha, E. reflexivity.
  - intros H. now rewrite lstrip_with_all.
Qed.

Lemma strip_head (c : char) (s : str) :
  is_space c = false -> strip (c :: s) = c :: rstrip_with is_space s.
Proof.
  intros Hc. unfold strip; simpl. rewrite Hc.
  now apply rstrip_with_keeps_head.
Qed.

(** What [strip] leaves is empty, or starts and ends with a character that
    is not white space. *)
Lemma strip_shape (s : str) :
  strip s = [] \/
  exists c t, strip s = c :: t /\ is_space c = false /\ rstrip_with is_space t = t.
Proof.
  unfold strip. pose proof (lstrip_with_head is_space s) as H.
  destruct (lstrip_with is_space s) as [|c t]; [now left|].
  right. rewrite rstrip_with_keeps_head by assumption.
  exists c, (rstrip_with is_space t). split; [easy|]. split; [easy|].
  apply rstrip_with_idem.
Qed.

Lemma strip_idem (s : str) : strip (strip s) = strip s.
Proof.
  destruct (strip_shape s) as [-> | (c & t & -> & Hc & Ht)]; [easy|].
  rewrite strip_head by assumption. now rewrite Ht.
Qed.

(** ** The patterns *)

Lemma star_k_total (p : char -> bool) (s : str) :
  star_k p s Some = Some (lstrip_with p s).
Proof.
  induction s as [|c s IH]; simpl; [easy|].
  destruct (p c); [now rewrite IH | reflexivity].
Qed.

(** When the rest of the pattern cannot start with a character of the
    class, the greedy repetition never gives a character back. *)
Lemma star_k_commit (p : char -> bool) (k : str -> option str) (s : str) :
  (forall c s', p c = true -> k (c :: s') = None) ->
  star_k p s k = k (lstrip_with p s).
Proof.
  intros Hk. induction s as [|c s IH]; simpl; [easy|].
  destruct (p c) eqn:Hc; [|reflexivity].
  rewrite IH. destruct (k (lstrip_with p s)); [reflexivity|].
  now apply Hk.
Qed.

Lemma space_not_dash (c : char) : is_space c = true -> (c =? ch "-")%N = false.
Proof.
  intros H. destruct (N.eqb_spec c (ch "-")) as [->|]; [discriminate|reflexivity].
Qed.

Lemma space_not_marker (c : char) : is_space c = true -> one_of (lit "-*") c = false.
Proof.
  intros H. unfold one_of; cbn [lit existsb].
  destruct (N.eqb_spec c (ch "-")) as [->|]; [discriminate|].
  destruct (N.eqb_spec c (ch "*")) as [->|]; [discriminate|reflexivity].
Qed.

Ltac split_ifs :=
  repeat match goal with
         | |- context [if ?b then _ else _] => destruct b eqn:?; simpl
         end.

Lemma re_checkbox_match (raw : str) :
  re_match re_checkbox raw =
  checkbox_after_indent (lit " xX") (lstrip_with is_space raw).
Proof.
  unfold re_match, re_checkbox; simpl rseq; cbn [rmatch].
  rewrite star_k_commit.
  2:{ intros c s' Hc. pose proof (space_not_dash _ Hc) as E.
      cbn in E. now rewrite E. }
  destruct (lstrip_with is_space raw) as [|d [|sp [|lb [|c [|rb [|sp2 rest]]]]]];
    unfold checkbox_after_indent, one_of; simpl;
    rewrite ?star_k_total; split_ifs; try reflexivity; try discriminate.
Qed.

Lemma re_checked_match (raw : str) :
  re_match re_checked raw =
  checkbox_after_indent (lit "xX") (lstrip_with is_space raw).
Proof.
  unfold re_match, re_checked; simpl rseq; cbn [rmatch].
  rewrite star_k_commit.
  2:{ intros c s' Hc. pose proof (space_not_dash _ Hc) as E.
      cbn in E. now rewrite E. }
  destruct (lstrip_with is_space raw) as [|d [|sp [|lb [|c [|rb [|sp2 rest]]]]]];
    unfold checkbox_after_indent, one_of; simpl;
    rewrite ?star_k_total; split_ifs; try reflexivity; try discriminate.
Qed.

Lemma re_bullet_match (raw : str) :
  re_match re_bullet raw = bullet_after_indent (lstrip_with is_space raw).
Proof.
  unfold re_match, re_bullet; simpl rseq; cbn [rmatch].
  rewrite star_k_commit.
  2:{ intros c s' Hc. pose proof (space_not_marker _ Hc) as E.
      cbn in E |- *. now rewrite E. }
  destruct (lstrip_with is_space raw) as [|m [|sp rest]];
    unfold bullet_after_indent; simpl;
    rewrite ?star_k_total; split_ifs; try reflexivity; try discriminate.
Qed.

(** ** The loop body of the parser *)

Lemma line_block_eq (line : str) :
  line_block line =
  let raw := rstrip_chars [LF] line in
  if is_blank raw then Block_kt KBlank []
  else if startswith raw (lit "# ") then Block_kt KH1 (strip (skipn 2 raw))
  else if startswith raw (lit "## ") then Block_kt KH2 (strip (skipn 3 raw))
  else if startswith raw (lit "### ") then Block_kt KH3 (strip (skipn 4 raw))
  else if matches re_checkbox raw then
    mkBlock KCheckbox (strip (re_sub_start re_checkbox raw)) (indent_level raw)
            (matches re_checked raw)
  else if matches re_bullet raw then
    mkBlock KBullet (strip (re_sub_start re_bullet raw)) (indent_level raw) false
  else if is_footer raw then Block_kt KFooter (strip raw)
  else if is_rule raw then Block_kt KBlank []
  else Block_kt KP (strip raw).
Proof.
  unfold line_block, parse_step, is_blank, is_footer, is_rule. cbv zeta.
  repeat match goal with
         | |- context [if ?b then _ else _] => destruct b
         end; reflexivity.
Qed.

Lemma parse_step_appends (blocks : list Block) (line : str) :
  parse_step blocks line = blocks ++ [line_block line].
Proof.
  unfold line_block, parse_step. cbv zeta.
  repeat match goal with
         | |- context [if ?b then _ else _] => destruct b
         end; reflexivity.
Qed.

Lemma parse_markdown_lines (md_text : str) :
  parse_markdown md_text = map line_block (splitlines md_text).
Proof.
  unfold parse_markdown.
  rewrite (fold_left_appends _ _ parse_step_appends). simpl.
  apply flat_map_singleton.
Qed.

(** ** Lines *)

Lemma splitlines_from_last_le (c : char) (n : nat) :
  is_linebreak c = false ->
  forall (s cur : str), (length s <= n)%nat ->
  splitlines_from cur (s ++ [c; LF]) = splitlines_from cur (s ++ [c]).
Proof.
  intros Hc.
  assert (Hne : (c =? LF)%N = false).
  { destruct (N.eqb_spec c LF) as [->|]; [discriminate|reflexivity]. }
  assert (Base : forall cur, splitlines_from cur [c; LF] = splitlines_from cur [c]).
  { intros cur. simpl. rewrite Hc. simpl. now destruct cur. }
  induction n as [|n IH]; intros s cur Hn.
  - destruct s; [apply Base | simpl in Hn; lia].
  - destruct s as [|x s]; [apply Base|].
    simpl in Hn. cbn [app splitlines_from].
    destruct (is_linebreak x); [|apply IH; lia].
    f_equal. destruct (x =? CR)%N; [|apply IH; lia].
    destruct s as [|y s]; cbn [app].
    + rewrite Hne. apply Base.
    + simpl in Hn. destruct (y =? LF)%N.
      * apply IH; lia.
      * apply (IH (y :: s)); simpl; lia.
Qed.

(** A newline after a line that has not ended only ends that line. *)
Lemma splitlines_trailing_newline (s : str) (c : char) :
  is_linebreak c = false ->
  splitlines ((s ++ [c]) ++ [LF]) = splitlines (s ++ [c]).
Proof.
  intros Hc. unfold splitlines. rewrite <- app_assoc. simpl.
  now apply splitlines_from_last_le with (n := length s).
Qed.

(** ** The empty text and the number of blocks *)

(** C1, as stated, fails: for the empty text the request list is not
    empty. *)
Lemma empty_text_has_a_request :
  parse_markdown (lit "") = [] /\
  full_text (parse_markdown (lit "")) = lit "" /\
  build_requests ascii_alnum (parse_markdown (lit "")) <> [].
Proof. repeat split. discriminate. Qed.

(** C1, amended.  For the empty text the parser gives no block, the
    assembled text is empty, and the request list is the insert-text
    request alone, with the empty text at index 1: no styling request. *)
Theorem empty_text_requests (isalnum : char -> bool) :
  parse_markdown (lit "") = [] /\
  full_text (parse_markdown (lit "")) = lit "" /\
  build_requests isalnum (parse_markdown (lit "")) = [insertText 1 (lit "")].
Proof. repeat split. Qed.

(** C2, as stated, fails: the text ["a\n"] ends with a newline and gives one
    block, the paragraph; no blank block follows it. *)
Lemma trailing_newline_adds_no_block :
  let md_text := lit "a" ++ [LF] in
  parse_markdown md_text = [Block_kt KP (lit "a")] /\
  ~ (exists blocks b, parse_markdown md_text = blocks ++ [b] /\ kind b = KBlank).
Proof.
  split; [reflexivity|].
  intros (blocks & b & E & Hb).
  change (parse_markdown (lit "a" ++ [LF])) with [Block_kt KP (lit "a")] in E.
  destruct blocks as [|b0 [|b1 blocks]]; simpl in E.
  - injection E as <-. discriminate.
  - discriminate.
  - discriminate.
Qed.

(** C2, amended.  The blocks are the lines of [splitlines] one for one, each
    line giving exactly one block, so there are as many blocks as lines; a
    newline that ends the text after an unfinished line ends that line and
    adds no block. *)
Theorem one_block_per_line (md_text : str) :
  parse_markdown md_text = map line_block (splitlines md_text) /\
  length (parse_markdown md_text) = length (splitlines md_text) /\
  (forall blocks line, parse_step blocks line = blocks ++ [line_block line]) /\
  (forall s c, md_text = s ++ [c] -> is_linebreak c = false ->
               parse_markdown (md_text ++ [LF]) = parse_markdown md_text).
Proof.
  repeat split.
  - apply parse_markdown_lines.
  - now rewrite parse_markdown_lines, length_map.
  - apply parse_step_appends.
  - intros s c -> Hc.
    now rewrite !parse_markdown_lines, splitlines_trailing_newline.
Qed.

Lemma one_block_per_line_witness :
  parse_markdown ((lit "# T" ++ [LF] ++ lit "a") ++ [LF])
  = parse_markdown (lit "# T" ++ [LF] ++ lit "a").
Proof.
  destruct (one_block_per_line (lit "# T" ++ [LF] ++ lit "a")) as (_ & _ & _ & H).
  apply (H (lit "# T" ++ [LF]) (ch "a")); reflexivity.
Defined.

(** ** The compiler on a sample *)

Lemma spans_contiguous_witness :
  start (mkSpan (nth 0 sample_blocks (Block_kt KBlank [])) 1 13) = 1%Z /\
  end_ (mkSpan (nth 0 sample_blocks (Block_kt KBlank [])) 1 13)
    = start (mkSpan (nth 1 sample_blocks (Block_kt KBlank [])) 13 19) /\
  (19 - 13 = len (lit "Title") + 1)%Z.
Proof.
  destruct (spans_contiguous sample_blocks) as (_ & H0 & Hadj & Hw).
  split; [|split].
  - apply H0. reflexivity.
  - apply (Hadj 0%nat); reflexivity.
  - apply (Hw (mkSpan (Block_kt KH1 (lit "Title")) 13 19)).
    right; left; reflexivity.
Defined.

Lemma requests_in_order_witness :
  filter is_insert (build_requests ascii_alnum sample_blocks)
  = [insertText 1 (full_text sample_blocks)].
Proof.
  apply (requests_in_order ascii_alnum (blocks := sample_blocks)).
  discriminate.
Defined.

Lemma indent_iff_nested_witness :
  exists r, In r (build_requests ascii_alnum sample_blocks) /\
            indent_over 1 13 r = Some (mkDimension 18 (lit "PT")).
Proof.
  apply (indent_iff_nested ascii_alnum sample_blocks
           (mkSpan (mkBlock KBullet (lit "nested @bob") 1 false) 1 13)
           (mkDimension 18 (lit "PT"))).
  - left; reflexivity.
  - left; reflexivity.
  - split; reflexivity.
Defined.

(** ** Which lines match which test *)

Lemma startswith_cons (raw : str) (x : char) (pre : str) :
  startswith raw (x :: pre) = true ->
  exists rest, raw = x :: rest /\ startswith rest pre = true.
Proof.
  destruct raw as [|c rest]; simpl; [easy|].
  intros [Hc Hr]%andb_prop. apply N.eqb_eq in Hc. subst c. now exists rest.
Qed.

Lemma startswith_app (pre rest : str) : startswith (pre ++ rest) pre = true.
Proof.
  induction pre as [|a pre IH]; simpl; [now destruct rest|].
  now rewrite N.eqb_refl, IH.
Qed.

Lemma nonspace_not_blank (c : char) (s : str) :
  is_space c = false -> is_blank (c :: s) = false.
Proof. intros Hc. unfold is_blank. now rewrite strip_head. Qed.

Lemma hash_not_blank (raw pre : str) :
  startswith raw (ch "#" :: pre) = true -> is_blank raw = false.
Proof.
  intros (rest & -> & _)%startswith_cons. now apply nonspace_not_blank.
Qed.

Lemma bullet_shape (raw : str) :
  matches re_bullet raw = true ->
  exists m sp rest, lstrip_with is_space raw = m :: sp :: rest /\
                    one_of (lit "-*") m = true /\ is_space sp = true.
Proof.
  unfold matches. rewrite re_bullet_match.
  destruct (lstrip_with is_space raw) as [|m [|sp rest]];
    unfold bullet_after_indent; try easy.
  destruct (one_of (lit "-*") m) eqn:Hm; [|easy].
  destruct (is_space sp) eqn:Hsp; [|easy].
  intros _. now exists m, sp, rest.
Qed.

Lemma checkbox_shape (boxes raw : str) :
  checkbox_after_indent boxes (lstrip_with is_space raw) <> None ->
  exists sp c sp2 rest,
    lstrip_with is_space raw = ch "-" :: sp :: ch "[" :: c :: ch "]" :: sp2 :: rest /\
    is_space sp = true /\ one_of boxes c = true /\ is_space sp2 = true.
Proof.
  destruct (lstrip_with is_space raw) as [|d [|sp [|lb [|c [|rb [|sp2 rest]]]]]];
    unfold checkbox_after_indent; try congruence.
  destruct (N.eqb_spec d (ch "-")) as [->|]; [|simpl; congruence].
  destruct (is_space sp) eqn:Hsp; [|simpl; congruence].
  destruct (N.eqb_spec lb (ch "[")) as [->|]; [|simpl; congruence].
  destruct (one_of boxes c) eqn:Hc; [|simpl; congruence].
  destruct (N.eqb_spec rb (ch "]")) as [->|]; [|simpl; congruence].
  destruct (is_space sp2) eqn:Hsp2; [|simpl; congruence].
  intros _. now exists sp, c, sp2, rest.
Qed.

Lemma checkbox_matches_shape (raw : str) :
  matches re_checkbox raw = true ->
  exists sp c sp2 rest,
    lstrip_with is_space raw = ch "-" :: sp :: ch "[" :: c :: ch "]" :: sp2 :: rest /\
    is_space sp = true /\ one_of (lit " xX") c = true /\ is_space sp2 = true.
Proof.
  unfold matches. rewrite re_checkbox_match. intros H.
  apply checkbox_shape. now destruct (checkbox_after_indent _ _).
Qed.

Lemma checkbox_is_bullet (raw : str) :
  matches re_checkbox raw = true -> matches re_bullet raw = true.
Proof.
  intros (sp & c & sp2 & rest & E & Hsp & _)%checkbox_matches_shape.
  unfold matches. rewrite re_bullet_match, E.
  unfold bullet_after_indent. now rewrite Hsp.
Qed.

Lemma bullet_not_blank (raw : str) :
  matches re_bullet raw = true -> is_blank raw = false.
Proof.
  intros (m & sp & rest & E & Hm & _)%bullet_shape.
  unfold is_blank, strip. rewrite E.
  assert (Hs : is_space m = false).
  { destruct (is_space m) eqn:H; [|reflexivity].
    now rewrite (space_not_marker _ H) in Hm. }
  now rewrite rstrip_with_keeps_head.
Qed.

(** A line whose first character is neither white space nor a list marker
    is no list item. *)
Lemma head_not_bullet (c : char) (s : str) :
  is_space c = false -> one_of (lit "-*") c = false ->
  matches re_bullet (c :: s) = false.
Proof.
  intros Hc Hm. unfold matches. rewrite re_bullet_match.
  cbn [lstrip_with]. rewrite Hc. unfold bullet_after_indent.
  destruct s; [reflexivity|]. now rewrite Hm.
Qed.

Lemma not_bullet_not_checkbox (raw : str) :
  matches re_bullet raw = false -> matches re_checkbox raw = false.
Proof.
  intros H. destruct (matches re_checkbox raw) eqn:E; [|reflexivity].
  apply checkbox_is_bullet in E. congruence.
Qed.

Lemma bullet_not_hash (raw pre : str) :
  matches re_bullet raw = true -> startswith raw (ch "#" :: pre) = false.
Proof.
  intros H. destruct (startswith raw (ch "#" :: pre)) eqn:E; [|reflexivity].
  apply startswith_cons in E as (rest & -> & _).
  now rewrite head_not_bullet in H.
Qed.

Lemma bullet_not_heading (raw : str) :
  matches re_bullet raw = true ->
  startswith raw (lit "# ") = false /\
  startswith raw (lit "## ") = false /\
  startswith raw (lit "### ") = false.
Proof.
  intros H. repeat split; exact (bullet_not_hash raw _ H).
Qed.

(** ** The parser's claims *)

Lemma first_match_kind (line : str) :
  first_match (rstrip_chars [LF] line) = Some (kind (line_block line)).
Proof.
  rewrite line_block_eq. cbv zeta.
  set (raw := rstrip_chars [LF] line).
  unfold first_match, patterns. cbn [find fst snd].
  destruct (is_blank raw); [reflexivity|].
  destruct (startswith raw (lit "# ")); [reflexivity|].
  destruct (startswith raw (lit "## ")); [reflexivity|].
  destruct (startswith raw (lit "### ")); [reflexivity|].
  destruct (matches re_checkbox raw); [reflexivity|].
  destruct (matches re_bullet raw); [reflexivity|].
  destruct (is_footer raw); [reflexivity|].
  destruct (is_rule raw); reflexivity.
Qed.

Lemma checkbox_line_block (line : str) :
  let raw := rstrip_chars [LF] line in
  matches re_checkbox raw = true ->
  line_block line =
  mkBlock KCheckbox (strip (re_sub_start re_checkbox raw)) (indent_level raw)
          (matches re_checked raw).
Proof.
  cbv zeta. intros H. rewrite line_block_eq. cbv zeta.
  pose proof (checkbox_is_bullet _ H) as Hb.
  destruct (bullet_not_heading _ Hb) as (H1 & H2 & H3).
  rewrite (bullet_not_blank _ Hb), H1, H2, H3, H.
  reflexivity.
Qed.

Lemma checked_iff_bracket (raw : str) :
  matches re_checkbox raw = true ->
  matches re_checked raw = one_of (lit "xX") (bracket_char raw).
Proof.
  intros (sp & c & sp2 & rest & E & Hsp & Hc & Hsp2)%checkbox_matches_shape.
  unfold matches, bracket_char. rewrite re_checked_match, E.
  unfold checkbox_after_indent. cbn [nth].
  rewrite !N.eqb_refl, Hsp, Hsp2. cbn [andb].
  rewrite andb_true_r. now destruct (one_of (lit "xX") c).
Qed.

(** C3.  The loop body appends one block, whose kind is that of the first
    test of the list blank, heading 1, heading 2, heading 3, checkbox,
    bullet, footer, rule (as blank), paragraph that the line passes.  A line
    that matches the checkbox pattern matches the bullet pattern too and is
    a checkbox block, checked exactly when the character between the
    brackets is x or X. *)
Theorem classification_first_match (blocks : list Block) (line : str) :
  let raw := rstrip_chars [LF] line in
  parse_step blocks line = blocks ++ [line_block line] /\
  first_match raw = Some (kind (line_block line)) /\
  (matches re_checkbox raw = true ->
     matches re_bullet raw = true /\
     kind (line_block line) = KCheckbox /\
     (checked (line_block line) = true <->
      bracket_char raw = ch "x" \/ bracket_char raw = ch "X")).
Proof.
  cbv zeta. split; [apply parse_step_appends|].
  split; [apply first_match_kind|].
  intros H. split; [now apply checkbox_is_bullet|].
  rewrite (checkbox_line_block line H). cbn [kind checked].
  split; [reflexivity|].
  rewrite (checked_iff_bracket _ H). unfold one_of. cbn [lit existsb].
  rewrite !orb_true_iff, !N.eqb_eq. intuition discriminate.
Qed.

Lemma classification_first_match_witness :
  kind (line_block (lit "  - [X] Buy milk")) = KCheckbox /\
  checked (line_block (lit "  - [X] Buy milk")) = true.
Proof.
  destruct (classification_first_match [] (lit "  - [X] Buy milk"))
    as (_ & _ & H).
  destruct (H eq_refl) as (_ & Hk & Hc).
  split; [exact Hk|]. apply Hc. right; reflexivity.
Defined.

Lemma heading_prefixes_exclusive (raw : str) :
  (startswith raw (lit "# ") = true -> startswith raw (lit "## ") = false) /\
  (startswith raw (lit "# ") = true -> startswith raw (lit "### ") = false) /\
  (startswith raw (lit "## ") = true -> startswith raw (lit "### ") = false).
Proof.
  repeat split; intros H.
  - apply startswith_cons in H as (r1 & -> & H).
    apply startswith_cons in H as (r2 & -> & _). reflexivity.
  - apply startswith_cons in H as (r1 & -> & H).
    apply startswith_cons in H as (r2 & -> & _). reflexivity.
  - apply startswith_cons in H as (r1 & -> & H).
    apply startswith_cons in H as (r2 & -> & H).
    apply startswith_cons in H as (r3 & -> & _). reflexivity.
Qed.

(** A line that starts with [#] and with none of the three heading
    prefixes is a paragraph. *)
Lemma hash_line_block (line rest : str) :
  let raw := rstrip_chars [LF] line in
  raw = ch "#" :: rest ->
  startswith raw (lit "# ") = false ->
  startswith raw (lit "## ") = false ->
  startswith raw (lit "### ") = false ->
  line_block line = Block_kt KP (strip raw).
Proof.
  cbv zeta. intros E H1 H2 H3. rewrite line_block_eq. cbv zeta.
  rewrite H1, H2, H3. rewrite E.
  rewrite nonspace_not_blank by reflexivity.
  assert (Hb : matches re_bullet (ch "#" :: rest) = false)
    by now apply head_not_bullet.
  rewrite (not_bullet_not_checkbox _ Hb), Hb.
  assert (Hf : is_footer (ch "#" :: rest) = false) by reflexivity.
  rewrite Hf.
  assert (Hr : is_rule (ch "#" :: rest) = false).
  { unfold is_rule, str_eqb. rewrite strip_head by reflexivity.
    now destruct (list_eq_dec _ _ _). }
  now rewrite Hr.
Qed.

Lemma repeat_hash_prefixes (n : nat) (rest : str) :
  (4 <= n)%nat ->
  let raw := repeat (ch "#") n ++ ch " " :: rest in
  raw = ch "#" :: tl raw /\
  startswith raw (lit "# ") = false /\
  startswith raw (lit "## ") = false /\
  startswith raw (lit "### ") = false.
Proof.
  intros Hn. do 4 (destruct n as [|n]; [lia|]). repeat split.
Qed.

(** C10.  A block is a heading 1, 2 or 3 exactly when the line starts with
    ["# "], ["## "] or ["### "].  A line that starts with [#] and with none
    of these prefixes, so a [#] that no space follows and that is no
    heading 2 or 3, or four or more [#] and a space, is a paragraph whose
    text is the whole line, trimmed. *)
Theorem only_exact_heading_prefixes (line : str) :
  let raw := rstrip_chars [LF] line in
  (kind (line_block line) = KH1 <-> startswith raw (lit "# ") = true) /\
  (kind (line_block line) = KH2 <-> startswith raw (lit "## ") = true) /\
  (kind (line_block line) = KH3 <-> startswith raw (lit "### ") = true) /\
  (forall rest,
     raw = ch "#" :: rest ->
     hd_error rest <> Some (ch " ") ->
     startswith raw (lit "## ") = false ->
     startswith raw (lit "### ") = false ->
     line_block line = Block_kt KP (strip raw)) /\
  (forall n rest,
     (4 <= n)%nat ->
     raw = repeat (ch "#") n ++ ch " " :: rest ->
     line_block line = Block_kt KP (strip raw)).
Proof.
  cbv zeta.
  assert (Kinds :
    (kind (line_block line) = KH1 <-> startswith (rstrip_chars [LF] line) (lit "# ") = true) /\
    (kind (line_block line) = KH2 <-> startswith (rstrip_chars [LF] line) (lit "## ") = true) /\
    (kind (line_block line) = KH3 <-> startswith (rstrip_chars [LF] line) (lit "### ") = true)).
  { rewrite line_block_eq. cbv zeta.
    set (raw := rstrip_chars [LF] line).
    pose proof (hash_not_blank raw (lit " ")) as F1.
    pose proof (hash_not_blank raw (lit "# ")) as F2.
    pose proof (hash_not_blank raw (lit "## ")) as F3.
    destruct (heading_prefixes_exclusive raw) as (X12 & X13 & X23).
    change (ch "#" :: lit " ") with (lit "# ") in F1.
    change (ch "#" :: lit "# ") with (lit "## ") in F2.
    change (ch "#" :: lit "## ") with (lit "### ") in F3.
    destruct (is_blank raw); destruct (startswith raw (lit "# "));
      destruct (startswith raw (lit "## ")); destruct (startswith raw (lit "### "));
      destruct (matches re_checkbox raw); destruct (matches re_bullet raw);
      destruct (is_footer raw); destruct (is_rule raw);
      cbn [kind Block_kt]; intuition congruence. }
  destruct Kinds as (K1 & K2 & K3).
  split; [exact K1|]. split; [exact K2|]. split; [exact K3|]. split.
  - intros rest E Hsp H2 H3. apply (hash_line_block line E); try assumption.
    rewrite E. destruct rest as [|c rest]; [reflexivity|].
    cbn [lit startswith]. rewrite N.eqb_refl.
    destruct (N.eqb_spec c (ch " ")) as [->|]; [now elim Hsp | reflexivity].
  - intros n rest Hn E.
    destruct (repeat_hash_prefixes rest Hn) as (E' & H1 & H2 & H3).
    cbv zeta in *. rewrite <- E in *.
    now apply (hash_line_block line E').
Qed.

Lemma only_exact_heading_prefixes_witness :
  line_block (lit "#Title") = Block_kt KP (lit "#Title") /\
  line_block (lit "#### x") = Block_kt KP (lit "#### x").
Proof.
  split.
  - destruct (only_exact_heading_prefixes (lit "#Title")) as (_ & _ & _ & H & _).
    apply (H (lit "Title")); [reflexivity | discriminate | reflexivity | reflexivity].
  - destruct (only_exact_heading_prefixes (lit "#### x")) as (_ & _ & _ & _ & H).
    apply (H 4%nat (lit "x")); [lia | reflexivity].
Defined.

(** ** Reparsing the reconstructed text *)

Lemma splitlines_from_line (l rest cur : str) :
  no_linebreak l = true ->
  splitlines_from cur (l ++ LF :: rest) = (cur ++ l) :: splitlines_from [] rest.
Proof.
  revert cur. induction l as [|c l IH]; intros cur H.
  - simpl. now rewrite app_nil_r.
  - simpl in H. apply andb_prop in H as [Hc Hl].
    apply negb_true_iff in Hc. cbn [app splitlines_from]. rewrite Hc.
    rewrite IH by assumption. now rewrite <- app_assoc.
Qed.

Lemma splitlines_terminated (lines : list str) :
  forallb no_linebreak lines = true ->
  splitlines (concat (map (fun l => l ++ [LF]) lines)) = lines.
Proof.
  unfold splitlines. induction lines as [|l lines IH]; [reflexivity|].
  simpl. intros [Hl Hs]%andb_prop.
  rewrite <- app_assoc. simpl.
  rewrite splitlines_from_line by assumption. simpl. now rewrite IH.
Qed.

Lemma splitlines_from_no_linebreak (n : nat) :
  forall (s cur : str), (length s <= n)%nat -> no_linebreak cur = true ->
  forallb no_linebreak (splitlines_from cur s) = true.
Proof.
  induction n as [|n IH]; intros s cur Hn Hcur.
  - destruct s; [|simpl in Hn; lia]. simpl.
    destruct cur; [reflexivity|]. simpl in *. now rewrite Hcur.
  - destruct s as [|x s].
    + simpl. destruct cur; [reflexivity|]. simpl in *. now rewrite Hcur.
    + simpl in Hn. cbn [splitlines_from].
      destruct (is_linebreak x) eqn:Hx.
      * cbn [forallb]. rewrite Hcur. cbn [andb].
        destruct (x =? CR)%N; [|apply IH; [lia|reflexivity]].
        destruct s as [|y s]; [apply IH; [simpl; lia|reflexivity]|].
        simpl in Hn.
        destruct (y =? LF)%N; apply IH; simpl; try lia; reflexivity.
      * apply IH; [lia|]. unfold no_linebreak in *.
        rewrite forallb_app, Hcur. simpl. now rewrite Hx.
Qed.

Lemma splitlines_no_linebreak (s : str) :
  forallb no_linebreak (splitlines s) = true.
Proof. now apply splitlines_from_no_linebreak with (n := length s). Qed.

(** What the string operations keep: a property of every character of the
    argument holds of every character of the result. *)
Section Kept.

Variable q : char -> bool.

Lemma lstrip_with_kept (p : char -> bool) (s : str) :
  forallb q s = true -> forallb q (lstrip_with p s) = true.
Proof.
  induction s as [|c s IH]; [easy|].
  intros H. simpl. destruct (p c); [|exact H].
  simpl in H. apply andb_prop in H as [_ H]. now apply IH.
Qed.

Lemma rstrip_with_kept (p : char -> bool) (s : str) :
  forallb q s = true -> forallb q (rstrip_with p s) = true.
Proof.
  intros H. unfold rstrip_with. rewrite forallb_rev.
  apply lstrip_with_kept. now rewrite forallb_rev.
Qed.

Lemma strip_kept (s : str) : forallb q s = true -> forallb q (strip s) = true.
Proof. intros H. now apply rstrip_with_kept, lstrip_with_kept. Qed.

Lemma skipn_kept (n : nat) (s : str) :
  forallb q s = true -> forallb q (skipn n s) = true.
Proof.
  revert s; induction n as [|n IH]; intros s H; [exact H|].
  destruct s as [|c s]; [reflexivity|].
  simpl in *. apply andb_prop in H as [_ H]. now apply IH.
Qed.

Lemma star_k_kept (p : char -> bool) (k : str -> option str) :
  keeps q k -> keeps q (fun s => star_k p s k).
Proof.
  intros Hk s. induction s as [|c s IH]; intros t Hs; simpl.
  - now apply Hk.
  - destruct (p c); [|now apply Hk].
    destruct (star_k p s k) as [t'|] eqn:E.
    + intros [= <-]. apply IH; [|reflexivity].
      simpl in Hs. now apply andb_prop in Hs as [_ Hs].
    + now apply Hk.
Qed.

Lemma rmatch_kept (r : regex) :
  forall k, keeps q k -> keeps q (fun s => rmatch r s k).
Proof.
  induction r as [a|p|p|p|r1 IH1 r2 IH2|r1 IH1 r2 IH2|]; intros k Hk s t Hs; simpl.
  - destruct s as [|c s]; [discriminate|]. destruct (c =? a)%N; [|discriminate].
    apply Hk. simpl in Hs. now apply andb_prop in Hs as [_ Hs].
  - destruct s as [|c s]; [discriminate|]. destruct (p c); [|discriminate].
    apply Hk. simpl in Hs. now apply andb_prop in Hs as [_ Hs].
  - now apply star_k_kept.
  - destruct s as [|c s]; [discriminate|]. destruct (p c); [|discriminate].
    apply star_k_kept; [assumption|].
    simpl in Hs. now apply andb_prop in Hs as [_ Hs].
  - destruct (rmatch r1 s k) as [t'|] eqn:E.
    + intros [= <-]. now apply (IH1 k Hk s).
    + now apply IH2.
  - apply (IH1 (fun s' => rmatch r2 s' k)); [|assumption].
    now apply IH2.
  - now apply Hk.
Qed.

Lemma re_sub_start_kept (r : regex) (s : str) :
  forallb q s = true -> forallb q (re_sub_start r s) = true.
Proof.
  intros Hs. unfold re_sub_start, re_match.
  destruct (rmatch r s Some) as [t|] eqn:E; [|exact Hs].
  apply (rmatch_kept r (k := Some)) with (s := s); try assumption.
  intros s' t' H [= <-]. exact H.
Qed.

Lemma line_block_text_kept (line : str) :
  forallb q line = true -> forallb q (text (line_block line)) = true.
Proof.
  intros H. rewrite line_block_eq. cbv zeta.
  assert (Hraw : forallb q (rstrip_chars [LF] line) = true)
    by now apply rstrip_with_kept.
  repeat match goal with
         | |- context [if ?b then _ else _] => destruct b
         end; cbn [text Block_kt]; try reflexivity;
    auto using strip_kept, skipn_kept, re_sub_start_kept.
Qed.

End Kept.

(** Trimmed texts. *)
Lemma trimmed_last (t : str) :
  strip t = t -> t = [] \/ exists t' c, t = t' ++ [c] /\ is_space c = false.
Proof.
  intros E. unfold strip in E.
  destruct (rstrip_with_last is_space (lstrip_with is_space t))
    as [H | (t' & c & H & Hc)]; rewrite E in H; [now left|].
  right. now exists t', c.
Qed.

Lemma trimmed_head (t : str) :
  strip t = t -> t = [] \/ exists c t', t = c :: t' /\ is_space c = false.
Proof.
  intros E. destruct (strip_shape t) as [H | (c & t' & H & Hc & _)];
    rewrite E in H; [now left|].
  right. now exists c, t'.
Qed.

Lemma line_block_text_trimmed (line : str) :
  strip (text (line_block line)) = text (line_block line).
Proof.
  rewrite line_block_eq. cbv zeta.
  repeat match goal with
         | |- context [if ?b then _ else _] => destruct b
         end; cbn [text Block_kt]; try reflexivity; apply strip_idem.
Qed.

Lemma nonspace_not_newline (c : char) :
  is_space c = false -> one_of [LF] c = false.
Proof.
  intros H. unfold one_of; simpl.
  destruct (N.eqb_spec c LF) as [->|]; [discriminate|reflexivity].
Qed.

(** A marker that [rstrip("\n")] leaves alone, followed by a trimmed text,
    is left alone too. *)
Lemma rstrip_newline_trimmed (m t : str) :
  rstrip_chars [LF] m = m -> strip t = t ->
  rstrip_chars [LF] (m ++ t) = m ++ t.
Proof.
  intros Hm Ht. destruct (trimmed_last Ht) as [-> | (t' & c & -> & Hc)].
  - now rewrite app_nil_r.
  - rewrite app_assoc. apply rstrip_with_fix.
    now apply nonspace_not_newline.
Qed.

Lemma lstrip_spaces (n : nat) (s : str) :
  lstrip_with is_space (repeat (ch " ") n ++ s) = lstrip_with is_space s.
Proof. induction n as [|n IH]; [reflexivity|]. simpl. exact IH. Qed.

Lemma rstrip_newline_spaces (n : nat) (s : str) :
  rstrip_chars [LF] s = s ->
  rstrip_chars [LF] (repeat (ch " ") n ++ s) = repeat (ch " ") n ++ s.
Proof.
  intros Hs. induction n as [|n IH]; [exact Hs|].
  cbn [repeat app]. unfold rstrip_chars in *.
  rewrite rstrip_with_keeps_head by reflexivity. now rewrite IH.
Qed.

Lemma startswith_split (raw pre : str) :
  startswith raw pre = true -> exists rest, raw = pre ++ rest.
Proof.
  revert raw; induction pre as [|a pre IH]; intros raw H.
  - now exists raw.
  - apply startswith_cons in H as (r & -> & H).
    destruct (IH _ H) as (rest & ->). now exists rest.
Qed.

(** Trimming keeps a prefix that starts and ends with characters that are
    not white space. *)
Lemma startswith_strip (raw pre : str) (c0 cl : char) :
  is_space c0 = false -> is_space cl = false ->
  startswith raw (c0 :: pre ++ [cl]) = true ->
  startswith (strip raw) (c0 :: pre ++ [cl]) = true.
Proof.
  intros H0 Hl (rest & ->)%startswith_split.
  cbn [app]. rewrite strip_head by assumption.
  rewrite <- app_assoc. cbn [app].
  rewrite rstrip_with_app_keep by assumption.
  change (c0 :: pre ++ cl :: rstrip_with is_space rest)
    with ((c0 :: pre) ++ [cl] ++ rstrip_with is_space rest).
  rewrite app_assoc. apply startswith_app.
Qed.

Lemma footer_strip (raw : str) :
  is_footer raw = true -> is_footer (strip raw) = true.
Proof.
  unfold is_footer. intros [H|H]%orb_prop; apply orb_true_iff; [left|right].
  - change (lit "Meeting recorded by:")
      with (ch "M" :: lit "eeting recorded by" ++ [ch ":"]) in *.
    now apply startswith_strip.
  - change (lit "Duration:") with (ch "D" :: lit "uration" ++ [ch ":"]) in *.
    now apply startswith_strip.
Qed.

Lemma lstrip_strip (raw : str) : lstrip_with is_space (strip raw) = strip raw.
Proof.
  destruct (strip_shape raw) as [-> | (c & t & -> & Hc & _)]; [reflexivity|].
  simpl. now rewrite Hc.
Qed.

Lemma bullet_strip (raw : str) :
  matches re_bullet (strip raw) = true -> matches re_bullet raw = true.
Proof.
  intros (m & sp & rest & E & Hm & Hsp)%bullet_shape.
  rewrite lstrip_strip in E. unfold strip in E.
  destruct (rstrip_with_split is_space (lstrip_with is_space raw)) as (w & Ew & _).
  rewrite E in Ew. unfold matches. rewrite re_bullet_match, Ew.
  cbn [app]. unfold bullet_after_indent. now rewrite Hm, Hsp.
Qed.

(** What the parser's blocks have in common. *)
Lemma line_block_facts (line : str) :
  let b := line_block line in
  (kind b = KBlank -> text b = []) /\
  (kind b = KFooter -> is_footer (text b) = true) /\
  (kind b = KP ->
     is_blank (text b) = false /\ matches re_bullet (text b) = false /\
     is_rule (text b) = false).
Proof.
  cbv zeta. rewrite line_block_eq. cbv zeta.
  set (raw := rstrip_chars [LF] line).
  destruct (is_blank raw) eqn:B; [now cbn|].
  destruct (startswith raw (lit "# ")); [now cbn|].
  destruct (startswith raw (lit "## ")); [now cbn|].
  destruct (startswith raw (lit "### ")); [now cbn|].
  destruct (matches re_checkbox raw); [now cbn|].
  destruct (matches re_bullet raw) eqn:Hb; [now cbn|].
  destruct (is_footer raw) eqn:F.
  { cbn [kind text Block_kt]. repeat split; try discriminate.
    intros _. now apply footer_strip. }
  destruct (is_rule raw) eqn:R; [now cbn|].
  cbn [kind text Block_kt]. repeat split; try discriminate.
  - unfold is_blank in *. now rewrite strip_idem.
  - destruct (matches re_bullet (strip raw)) eqn:E; [|reflexivity].
    apply bullet_strip in E. congruence.
  - unfold is_rule in *. now rewrite strip_idem.
Qed.

Lemma first_match_eq (raw : str) :
  first_match raw =
  if is_blank raw then Some KBlank
  else if startswith raw (lit "# ") then Some KH1
  else if startswith raw (lit "## ") then Some KH2
  else if startswith raw (lit "### ") then Some KH3
  else if matches re_checkbox raw then Some KCheckbox
  else if matches re_bullet raw then Some KBullet
  else if is_footer raw then Some KFooter
  else if is_rule raw then Some KBlank
  else Some KP.
Proof.
  unfold first_match, patterns. cbn [find fst snd].
  repeat match goal with
         | |- context [if ?b then _ else _] => destruct b
         end; reflexivity.
Qed.

Lemma first_match_heading (pre t : str) (k : Kind) :
  (pre = lit "# " /\ k = KH1) \/ (pre = lit "## " /\ k = KH2)
  \/ (pre = lit "### " /\ k = KH3) ->
  first_match (pre ++ t) = Some k.
Proof.
  intros H. rewrite first_match_eq.
  assert (Hs : startswith (pre ++ t) pre = true) by apply startswith_app.
  destruct H as [[-> ->]|[[-> ->]|[-> ->]]].
  - rewrite (hash_not_blank _ _ Hs), Hs. reflexivity.
  - rewrite (hash_not_blank _ _ Hs), Hs. reflexivity.
  - rewrite (hash_not_blank _ _ Hs), Hs. reflexivity.
Qed.

Lemma first_match_list (raw : str) :
  matches re_bullet raw = true ->
  first_match raw = Some (if matches re_checkbox raw then KCheckbox else KBullet).
Proof.
  intros Hb. rewrite first_match_eq.
  destruct (bullet_not_heading _ Hb) as (H1 & H2 & H3).
  rewrite (bullet_not_blank _ Hb), H1, H2, H3, Hb.
  now destruct (matches re_checkbox raw).
Qed.

Lemma matches_after_spaces (r : regex) (n : nat) (s : str) :
  r = re_bullet \/ r = re_checkbox ->
  matches r (repeat (ch " ") n ++ s) = matches r s.
Proof.
  intros [-> | ->]; unfold matches.
  - now rewrite !re_bullet_match, lstrip_spaces.
  - now rewrite !re_checkbox_match, lstrip_spaces.
Qed.

Lemma marker_matches (t : str) :
  matches re_bullet (lit "- " ++ t) = true /\
  matches re_bullet (lit "- [x] " ++ t) = true /\
  matches re_bullet (lit "- [ ] " ++ t) = true /\
  matches re_checkbox (lit "- [x] " ++ t) = true /\
  matches re_checkbox (lit "- [ ] " ++ t) = true.
Proof.
  unfold matches. rewrite !re_bullet_match, !re_checkbox_match.
  repeat split.
Qed.

(** The test that the reconstructed line of a block passes first is the
    one of the block's kind. *)
Lemma reconstructed_first_match (b : Block) :
  (kind b = KBlank -> text b = []) ->
  (kind b = KFooter -> is_footer (text b) = true) ->
  (kind b = KP ->
     is_blank (text b) = false /\ matches re_bullet (text b) = false /\
     is_rule (text b) = false) ->
  keeps_kind b = true ->
  first_match (spec_reconstruct_line b) = Some (kind b).
Proof.
  destruct b as [k t lvl chk]. unfold spec_reconstruct_line, spec_marker, keeps_kind.
  cbn [kind text level checked]. intros Hblank Hfooter Hp Hkeep.
  destruct k.
  - apply first_match_heading. auto.
  - apply first_match_heading. auto.
  - apply first_match_heading. auto.
  - (* bullet *)
    apply negb_true_iff in Hkeep.
    rewrite <- app_assoc. rewrite first_match_list.
    + now rewrite matches_after_spaces, Hkeep by auto.
    + rewrite matches_after_spaces by auto. apply marker_matches.
  - (* checkbox *)
    destruct (marker_matches t) as (_ & B1 & B2 & C1 & C2).
    rewrite <- app_assoc. rewrite first_match_list.
    + rewrite matches_after_spaces by auto. destruct chk; [now rewrite C1 | now rewrite C2].
    + rewrite matches_after_spaces by auto. now destruct chk.
  - (* footer *)
    specialize (Hfooter eq_refl). cbn [app]. rewrite first_match_eq.
    assert (exists c rest, t = c :: rest /\ (c = ch "M" \/ c = ch "D")) as (c & rest & -> & Hc).
    { unfold is_footer in Hfooter. apply orb_prop in Hfooter as [H|H];
        apply startswith_cons in H as (rest & -> & _); eauto. }
    assert (Hsp : is_space c = false) by now destruct Hc as [-> | ->].
    assert (Hm : one_of (lit "-*") c = false) by now destruct Hc as [-> | ->].
    rewrite (@nonspace_not_blank c rest Hsp).
    pose proof (@head_not_bullet c rest Hsp Hm) as Hb.
    rewrite (not_bullet_not_checkbox _ Hb), Hb, Hfooter.
    now destruct Hc as [-> | ->].
  - (* paragraph *)
    destruct (Hp eq_refl) as (Hb & Hbu & Hr). cbn [app].
    apply negb_true_iff in Hkeep.
    apply orb_false_elim in Hkeep as [Hkeep Hf].
    apply orb_false_elim in Hkeep as [Hkeep H3].
    apply orb_false_elim in Hkeep as [H1 H2].
    rewrite first_match_eq, Hb, H1, H2, H3, (not_bullet_not_checkbox _ Hbu), Hbu, Hf, Hr.
    reflexivity.
  - (* blank *)
    rewrite (Hblank eq_refl). reflexivity.
Qed.

Lemma reconstructed_raw (b : Block) :
  strip (text b) = text b ->
  rstrip_chars [LF] (spec_reconstruct_line b) = spec_reconstruct_line b.
Proof.
  intros Ht. unfold spec_reconstruct_line. apply rstrip_newline_trimmed; [|exact Ht].
  unfold spec_marker. destruct (kind b); try reflexivity.
  - now apply rstrip_newline_spaces.
  - apply rstrip_newline_spaces. now destruct (checked b).
Qed.

Lemma reconstructed_no_linebreak (line : str) :
  no_linebreak line = true ->
  no_linebreak (spec_reconstruct_line (line_block line)) = true.
Proof.
  intros H. unfold no_linebreak, spec_reconstruct_line.
  rewrite forallb_app. apply andb_true_intro. split.
  - unfold spec_marker. destruct (kind (line_block line)); try reflexivity.
    + rewrite forallb_app. apply andb_true_intro. split; [|reflexivity].
      induction (2 * Z.to_nat (level (line_block line)))%nat; auto.
    + rewrite forallb_app. apply andb_true_intro. split;
        [|now destruct (checked (line_block line))].
      induction (2 * Z.to_nat (level (line_block line)))%nat; auto.
  - now apply line_block_text_kept.
Qed.

Lemma reconstructed_lines (lines : list str) :
  forallb no_linebreak lines = true ->
  splitlines (spec_reconstruct (map line_block lines))
  = map (fun line => spec_reconstruct_line (line_block line)) lines.
Proof.
  intros H. unfold spec_reconstruct. rewrite map_map.
  rewrite <- (map_map (fun line => spec_reconstruct_line (line_block line))
                      (fun l => l ++ [LF])).
  apply splitlines_terminated.
  induction lines as [|l lines IH]; [reflexivity|].
  simpl in *. apply andb_prop in H as [Hl Hs].
  now rewrite reconstructed_no_linebreak, IH.
Qed.


(** ** The mention pattern and the scenarios of the specification *)

(** A match of [@\w+] at the start of a text: an [@], then the longest run
    of word characters, which is not empty. *)
Lemma mention_match (isalnum : char -> bool) (s : str) :
  re_match (MENTION_RE isalnum) s =
  match s with
  | a :: c :: rest =>
      if ((a =? ch "@")%N && is_word isalnum c)%bool
      then Some (lstrip_with (is_word isalnum) rest)
      else None
  | _ => None
  end.
Proof.
  unfold re_match, MENTION_RE. cbn [rseq rmatch].
  destruct s as [|a [|c rest]]; [reflexivity| |].
  - now destruct (a =? ch "@")%N.
  - destruct (a =? ch "@")%N; [|reflexivity]. cbn [andb].
    destruct (is_word isalnum c); [|reflexivity].
    apply star_k_total.
Qed.

Example scenario_heading :
  parse_markdown (lit "# Title" ++ [LF]) = [Block_kt KH1 (lit "Title")] /\
  build_requests ascii_alnum (parse_markdown (lit "# Title" ++ [LF]))
  = [insertText 1 (lit "Title" ++ [LF]);
     _paragraph_style_request 1 7 (Some (lit "HEADING_1")) None].
Proof. split; reflexivity. Qed.

Example scenario_mentions :
  filter is_bold
    (build_requests ascii_alnum
       (parse_markdown (lit "Ping @alice and @bob_2 please" ++ [LF])))
  = [bold_request 6 12; bold_request 17 23].
Proof. reflexivity. Qed.

Example scenario_nested_bullet :
  build_requests ascii_alnum (parse_markdown (lit "  - nested" ++ [LF]))
  = [insertText 1 (lit "nested" ++ [LF]);
     createParagraphBullets (mkRange 1 8) (lit "BULLET_DISC_CIRCLE_SQUARE");
     indent_request 1 8 18].
Proof. reflexivity. Qed.

Example scenario_rule :
  parse_markdown (lit "---" ++ [LF]) = [Block_kt KBlank []] /\
  build_requests ascii_alnum (parse_markdown (lit "---" ++ [LF]))
  = [insertText 1 [LF]].
Proof. split; reflexivity. Qed.

(** * Further properties *)

(** ** The request builders *)

(** X1.  [_paragraph_style_request] puts in the style, and names in the
    mask, exactly the arguments it takes as given: an empty style name
    counts as none given, an indent of 0 as given.  With nothing given the
    style and the mask are empty. *)
Theorem paragraph_style_request_given (start end_ : Z) (name : option str)
    (indent_pt : option Z) :
  let given := match name with Some (_ :: _) => name | _ => None end in
  let st :=
    mkParagraphStyle given
      (option_map (fun pt => mkDimension pt (lit "PT")) indent_pt) in
  _paragraph_style_request start end_ name indent_pt
  = updateParagraphStyle (mkRange start end_) st
      (join (lit ",") (paragraph_style_keys st)).
Proof.
  destruct name as [[|c n]|]; destruct indent_pt; reflexivity.
Qed.

(** X2.  Whatever arguments are given, the mask of a request built by
    [_text_style_request] is the comma-separated list of the keys of its
    style, in the order bold, italic, fontSize, foregroundColor. *)
Theorem text_style_request_mask (start end_ : Z) (b i : option bool)
    (font_size_pt : option Z) (rgb : option RgbColor) :
  let st :=
    mkTextStyle b i (option_map (fun pt => mkDimension pt (lit "PT")) font_size_pt) rgb in
  _text_style_request start end_ b i font_size_pt rgb
  = updateTextStyle (mkRange start end_) st (join (lit ",") (text_style_keys st)).
Proof.
  destruct b, i, font_size_pt, rgb; reflexivity.
Qed.

(** ** More on the request list *)

Section MoreRequests.

Variable isalnum : char -> bool.

Local Open Scope Z_scope.

Lemma in_build_requests (blocks : list Block) (r : Request) :
  In r (build_requests isalnum blocks) <->
  r = insertText 1 (full_text blocks) \/
  exists s, In s (spans (layout blocks)) /\
            (In r (style_ops s) \/ In r (list_ops s) \/ In r (mention_ops isalnum s)).
Proof.
  rewrite build_requests_groups, spans_layout. simpl.
  rewrite !in_app_iff, !in_flat_map. split.
  - intros [H|[(s & Hs & H)|[(s & Hs & H)|(s & Hs & H)]]]; eauto 6.
  - intros [H|(s & Hs & [H|[H|H]])]; eauto 6.
Qed.

(** X3.  Every styling request of the list names in its mask exactly the
    keys of its style, and at least one key: no request of the list has
    an empty mask. *)
Theorem requests_mask_names_keys (blocks : list Block) (r : Request) :
  In r (build_requests isalnum blocks) -> mask_names_keys r.
Proof.
  intros [->|(s & _ & [H|[H|H]])]%in_build_requests.
  - exact I.
  - unfold style_ops, style_step in H.
    destruct (kind (block s)); simpl in H; try easy;
      destruct H as [<-|[]]; (split; [reflexivity|discriminate]).
  - unfold list_ops, list_step in H.
    destruct (kind (block s)); simpl in H; try easy;
      destruct (level (block s) >? 0); simpl in H;
      repeat destruct H as [<-|H]; try easy;
      (split; [reflexivity|discriminate]).
  - rewrite mention_ops_matches, in_map_iff in H.
    destruct H as (m & <- & _). split; [reflexivity|discriminate].
Qed.

Lemma spans_from_with_checked (f : Block -> bool) (c : Z) (blocks : list Block) :
  spans_from c (map (with_checked f) blocks)
  = map (fun s => mkSpan (with_checked f (block s)) (start s) (end_ s))
        (spans_from c blocks).
Proof.
  revert c; induction blocks as [|b bs IH]; intros c; [reflexivity|].
  simpl. now rewrite IH.
Qed.

(** X4.  The request list does not depend on the [checked] flags of the
    blocks: checked and unchecked items give the same requests. *)
Theorem requests_ignore_checked (f : Block -> bool) (blocks : list Block) :
  build_requests isalnum (map (with_checked f) blocks)
  = build_requests isalnum blocks.
Proof.
  rewrite !build_requests_groups, spans_from_with_checked.
  assert (E : full_text (map (with_checked f) blocks) = full_text blocks).
  { unfold full_text. rewrite !text_parts_layout, map_map. reflexivity. }
  rewrite E. f_equal.
  rewrite !flat_map_concat_map, !map_map.
  reflexivity.
Qed.

End MoreRequests.

Lemma requests_mask_names_keys_witness :
  mask_names_keys (indent_request 1 13 18).
Proof.
  apply (requests_mask_names_keys ascii_alnum sample_blocks).
  cbv. do 3 right. left. reflexivity.
Defined.

Section HeadingStyles.

Variable isalnum : char -> bool.

Local Open Scope Z_scope.

Lemma style_ops_named (s : Span) (a z : Z) (n : str) (r : Request) :
  In r (style_ops s) -> named_style_over a z r = Some n ->
  a = start s /\ heading_style (kind (block s)) = Some n.
Proof.
  unfold style_ops, style_step; cbv beta iota zeta.
  destruct (kind (block s)); simpl; try easy;
    intros [<-|[]]; simpl; try easy;
    destruct (start s =? a) eqn:Ea; simpl; try easy;
    destruct (end_ s =? z); simpl; try easy;
    intros [= <-]; (split; [lia|reflexivity]).
Qed.

Lemma list_ops_not_named (s : Span) (a z : Z) (r : Request) :
  In r (list_ops s) -> named_style_over a z r = None.
Proof.
  unfold list_ops, list_step; cbv beta iota zeta.
  destruct (kind (block s)); simpl; try easy;
    destruct (level (block s) >? 0); simpl;
    intros H; repeat destruct H as [<-|H]; try easy; simpl;
    match goal with |- (if ?c then _ else _) = _ => now destruct c end.
Qed.

Lemma mention_ops_not_named (s : Span) (a z : Z) (r : Request) :
  In r (mention_ops isalnum s) -> named_style_over a z r = None.
Proof.
  rewrite mention_ops_matches, in_map_iff. now intros (m & <- & _).
Qed.

(** X5.  The request list sets a named style on the range of a block's
    span exactly when the block is a heading, and the style is then
    HEADING_1, HEADING_2 or HEADING_3 after the block's kind: no other
    block is given a named style. *)
Theorem named_style_iff_heading (blocks : list Block) (s : Span) (n : str) :
  In s (spans (layout blocks)) ->
  (exists r, In r (build_requests isalnum blocks) /\
             named_style_over (start s) (end_ s) r = Some n)
  <-> heading_style (kind (block s)) = Some n.
Proof.
  intros Hs. split.
  - intros (r & Hr & Hn). apply in_build_requests in Hr.
    destruct Hr as [->|(s' & Hs' & [H|[H|H]])].
    + discriminate.
    + destruct (@style_ops_named s' _ _ n r H Hn) as (Ea & Hk).
      rewrite spans_layout in Hs, Hs'.
      assert (s = s') by (eapply spans_from_start_inj; eauto).
      now subst s'.
    + now rewrite (@list_ops_not_named s' (start s) (end_ s) r H) in Hn.
    + now rewrite (@mention_ops_not_named s' (start s) (end_ s) r H) in Hn.
  - intros Hk.
    exists (_paragraph_style_request (start s) (end_ s) (Some n) None). split.
    + apply in_build_requests. right. exists s. split; [assumption|]. left.
      unfold style_ops, style_step.
      destruct (kind (block s)); simpl in Hk; try discriminate;
        injection Hk as <-; now left.
    + destruct (kind (block s)); simpl in Hk; try discriminate;
        injection Hk as <-; simpl; now rewrite !Z.eqb_refl.
Qed.

End HeadingStyles.

Lemma named_style_iff_heading_witness :
  exists r, In r (build_requests ascii_alnum sample_blocks) /\
            named_style_over 13 19 r = Some (lit "HEADING_1").
Proof.
  apply (named_style_iff_heading ascii_alnum sample_blocks
           (mkSpan (Block_kt KH1 (lit "Title")) 13 19) (lit "HEADING_1")).
  - right; left; reflexivity.
  - reflexivity.
Defined.

(** ** The matches of the mention pattern *)

Lemma lstrip_with_idem (p : char -> bool) (s : str) :
  lstrip_with p (lstrip_with p s) = lstrip_with p s.
Proof.
  pose proof (lstrip_with_head p s) as H.
  destruct (lstrip_with p s) as [|c t]; [reflexivity|].
  simpl. now rewrite H.
Qed.

Section Mentions.

Variable isalnum : char -> bool.

Local Open Scope Z_scope.

(** A match found in [s], the text from offset [pos] on: where the text
    splits around it. *)
Lemma finditer_from_mention (s : str) :
  forall (pos : Z) (skip : nat) (a z : Z),
  In (a, z) (finditer_from (MENTION_RE isalnum) pos skip s) ->
  exists pre w rest,
    s = pre ++ ch "@" :: w ++ rest /\
    Z.of_nat skip <= len pre /\
    a = pos + len pre /\ z = a + 1 + len w /\
    w <> [] /\ forallb (is_word isalnum) w = true /\
    lstrip_with (is_word isalnum) rest = rest.
Proof.
  induction s as [|c s IH]; intros pos skip a z H.
  - simpl in H. now destruct skip.
  - cbn [finditer_from] in H. destruct skip as [|k].
    + rewrite mention_match in H.
      assert (Later : forall n,
                In (a, z) (finditer_from (MENTION_RE isalnum) (pos + 1) n s) ->
                exists pre w rest,
                  c :: s = pre ++ ch "@" :: w ++ rest /\
                  Z.of_nat 0 <= len pre /\
                  a = pos + len pre /\ z = a + 1 + len w /\
                  w <> [] /\ forallb (is_word isalnum) w = true /\
                  lstrip_with (is_word isalnum) rest = rest).
      { intros n Hn. destruct (IH _ _ _ _ Hn) as (pre & w & rest & -> & _ & -> & Hz & Hw).
        exists (c :: pre), w, rest. unfold len in *. simpl length.
        repeat split; try apply Hw; try lia. }
      destruct s as [|c2 rest0]; [now apply (Later 0%nat)|].
      destruct ((c =? ch "@")%N && is_word isalnum c2)%bool eqn:Hc;
        [|now apply (Later 0%nat)].
      destruct H as [H|H]; [|now apply Later in H].
      apply andb_prop in Hc as [Hat Hw2]. apply N.eqb_eq in Hat. subst c.
      destruct (lstrip_with_split (is_word isalnum) rest0) as (w' & E & Hw').
      assert (Hlen : length rest0
                     = (length w' + length (lstrip_with (is_word isalnum) rest0))%nat).
      { rewrite E at 1. apply length_app. }
      assert (Ha : a = pos) by congruence.
      assert (Hz : z = pos + Z.of_nat (length (ch "@" :: c2 :: rest0)
                                       - length (lstrip_with (is_word isalnum) rest0)))
        by congruence.
      clear H Later IH.
      exists [], (c2 :: w'), (lstrip_with (is_word isalnum) rest0).
      split; [simpl; now rewrite <- E|].
      split; [unfold len; simpl; lia|].
      split; [unfold len; simpl; lia|].
      split; [rewrite Hz, Ha; unfold len; simpl length; lia|].
      split; [discriminate|].
      split; [simpl; now rewrite Hw2, Hw'|].
      apply lstrip_with_idem.
    + destruct (IH _ _ _ _ H) as (pre & w & rest & -> & Hk & -> & Hz & Hw).
      exists (c :: pre), w, rest. unfold len in *. simpl length.
      repeat split; try apply Hw; try lia.
Qed.

(** X6.  Every match of the mention pattern is an [@] followed by one or
    more word characters, as many as the text has there: the text splits
    into what precedes the match, the [@], the word, and a rest that does
    not start with a word character. *)
Theorem mention_matches_shape (s : str) (a z : Z) :
  In (a, z) (finditer (MENTION_RE isalnum) s) ->
  exists pre w rest,
    s = pre ++ ch "@" :: w ++ rest /\
    a = len pre /\ z = a + 1 + len w /\
    w <> [] /\ forallb (is_word isalnum) w = true /\
    match rest with [] => True | c :: _ => is_word isalnum c = false end.
Proof.
  intros H. apply finditer_from_mention in H
    as (pre & w & rest & E & _ & Ha & Hz & Hne & Hw & Hr).
  exists pre, w, rest. repeat split; try assumption; try lia.
  rewrite <- Hr. apply lstrip_with_head.
Qed.

Lemma finditer_from_ordered (s : str) :
  forall (pos : Z) (skip : nat) (i : nat) (m m' : Z * Z),
  nth_error (finditer_from (MENTION_RE isalnum) pos skip s) i = Some m ->
  nth_error (finditer_from (MENTION_RE isalnum) pos skip s) (S i) = Some m' ->
  snd m <= fst m'.
Proof.
  induction s as [|c s IH]; intros pos skip i m m' H H'.
  - simpl in H. destruct skip; now destruct i.
  - cbn [finditer_from] in H, H'. destruct skip as [|k]; [|eauto].
    rewrite mention_match in H, H'.
    destruct s as [|c2 rest0]; [eauto|].
    destruct ((c =? ch "@")%N && is_word isalnum c2)%bool; [|eauto].
    cbv beta iota zeta in H, H'.
    set (n := (length (c :: c2 :: rest0)
               - length (lstrip_with (is_word isalnum) rest0))%nat) in *.
    destruct i as [|i]; [|cbn [nth_error] in H, H'; eauto].
    assert (E : m = (pos, pos + Z.of_nat n)) by (cbn [nth_error] in H; congruence).
    subst m. cbn [snd].
    match type of H' with
    | nth_error (_ :: ?l) 1 = _ => change (nth_error l 0 = Some m') in H'
    end.
    apply nth_error_In in H'. destruct m' as (a', z').
    apply finditer_from_mention in H'
      as (pre & w & rest' & _ & Hk & -> & _). cbn [fst].
    lia.
Qed.

(** X7.  The matches of the mention pattern come in text order and do
    not overlap: each starts at or after the end of the one before. *)
Theorem mention_matches_ordered (s : str) (i : nat) (m m' : Z * Z) :
  nth_error (finditer (MENTION_RE isalnum) s) i = Some m ->
  nth_error (finditer (MENTION_RE isalnum) s) (S i) = Some m' ->
  snd m <= fst m'.
Proof. apply finditer_from_ordered. Qed.

End Mentions.

Lemma mention_matches_shape_witness :
  exists pre w rest,
    lit "Ping @alice and @bob_2 please" = pre ++ ch "@" :: w ++ rest /\
    5%Z = len pre /\ 11%Z = (5 + 1 + len w)%Z /\
    w <> [] /\ forallb (is_word ascii_alnum) w = true /\
    match rest with [] => True | c :: _ => is_word ascii_alnum c = false end.
Proof.
  apply (@mention_matches_shape ascii_alnum (lit "Ping @alice and @bob_2 please") 5 11).
  left; reflexivity.
Defined.

Lemma mention_matches_ordered_witness : (snd (5, 11) <= fst (16, 22))%Z.
Proof.
  apply (@mention_matches_ordered ascii_alnum
           (lit "Ping @alice and @bob_2 please") 0%nat (5, 11)%Z (16, 22)%Z);
    reflexivity.
Defined.

(** ** Where the requests apply *)

Section Ranges.

Variable isalnum : char -> bool.

Local Open Scope Z_scope.

Lemma len_app (a b : str) : len (a ++ b) = len a + len b.
Proof. unfold len. rewrite length_app. lia. Qed.

Lemma spans_from_upper (c : Z) (blocks : list Block) (s : Span) :
  In s (spans_from c blocks) ->
  end_ s <= c + len (concat (map line_of blocks)).
Proof.
  revert c; induction blocks as [|b bs IH]; intros c; simpl; [easy|].
  rewrite len_app. unfold line_of at 1. rewrite len_app.
  change (len [LF]) with 1.
  pose proof (len_nonneg (concat (map line_of bs))) as Hn.
  intros [<-|H]; simpl; [lia|].
  apply IH in H. lia.
Qed.

Lemma style_ops_range (s : Span) (r : Request) :
  In r (style_ops s) -> request_range r = Some (start s, end_ s).
Proof.
  unfold style_ops, style_step; cbv beta iota zeta.
  destruct (kind (block s)); simpl; try easy; now intros [<-|[]].
Qed.

Lemma list_ops_range (s : Span) (r : Request) :
  In r (list_ops s) -> request_range r = Some (start s, end_ s).
Proof.
  unfold list_ops, list_step; cbv beta iota zeta.
  destruct (kind (block s)); simpl; try easy;
    destruct (level (block s) >? 0); simpl;
    intros H; repeat destruct H as [<-|H]; easy.
Qed.

Lemma mention_ops_range (s : Span) (r : Request) (a z : Z) :
  In r (mention_ops isalnum s) -> request_range r = Some (a, z) ->
  start s <= a /\ a + 2 <= z /\ z <= start s + len (text (block s)).
Proof.
  rewrite mention_ops_matches, in_map_iff.
  intros ((a', z') & <- & Hm). simpl. intros [= <- <-].
  apply finditer_from_mention in Hm
    as (pre & w & rest & E & _ & -> & -> & Hne & _).
  rewrite E, !len_app.
  change (ch "@" :: w ++ rest) with ([ch "@"] ++ w ++ rest).
  rewrite !len_app. change (len [ch "@"]) with 1.
  pose proof (len_nonneg pre). pose proof (len_nonneg rest).
  assert (1 <= len w) by (destruct w; [easy | unfold len; simpl; lia]).
  lia.
Qed.

(** X8.  The range of every styling request is not empty and lies in the
    span of one block, so within the inserted text, which takes up the
    offsets from 1 to 1 + len(full_text); the range of a mention's bold
    request stops before the newline that ends the span. *)
Theorem request_ranges_in_text (blocks : list Block) (r : Request) (a z : Z) :
  In r (build_requests isalnum blocks) ->
  request_range r = Some (a, z) ->
  exists s,
    In s (spans (layout blocks)) /\
    1 <= start s /\ start s <= a /\ a < z /\ z <= end_ s /\
    end_ s <= 1 + len (full_text blocks) /\
    (is_bold r = true -> z < end_ s).
Proof.
  intros Hr Hrg. apply in_build_requests in Hr.
  destruct Hr as [->|(s & Hs & H)]; [discriminate|].
  exists s. split; [assumption|].
  rewrite spans_layout in Hs.
  pose proof (spans_from_lower _ _ _ Hs) as Hlo.
  pose proof (spans_from_width _ _ _ Hs) as Hw.
  pose proof (spans_from_upper _ _ _ Hs) as Hup.
  pose proof (len_nonneg (text (block s))) as Hn.
  unfold full_text, join_empty. rewrite text_parts_layout.
  destruct H as [H|[H|H]].
  - rewrite (style_ops_range _ _ H) in Hrg. injection Hrg as <- <-.
    repeat split; try lia.
    intros Hb. pose proof (style_ops_group s) as G.
    rewrite forallb_forall in G.
    apply G, block_style_not_bold in H. congruence.
  - rewrite (list_ops_range _ _ H) in Hrg. injection Hrg as <- <-.
    repeat split; try lia.
    intros Hb. pose proof (list_ops_group s) as G.
    rewrite forallb_forall in G.
    apply G, list_op_not_bold in H. congruence.
  - destruct (mention_ops_range _ _ H Hrg) as (H1 & H2 & H3).
    repeat split; try lia.
Qed.

End Ranges.

Lemma request_ranges_in_text_witness :
  exists s,
    In s (spans (layout sample_blocks)) /\
    (1 <= start s /\ start s <= 8 /\ 8 < 12 /\ 12 <= end_ s /\
     end_ s <= 1 + len (full_text sample_blocks) /\
     (is_bold (bold_request 8 12) = true -> 12 < end_ s))%Z.
Proof.
  apply (@request_ranges_in_text ascii_alnum sample_blocks (bold_request 8 12) 8 12).
  - cbv. do 4 right. left. reflexivity.
  - reflexivity.
Defined.

(** ** More on the parser *)

Lemma rstrip_with_none (p : char -> bool) (s : str) :
  forallb (fun c => negb (p c)) s = true -> rstrip_with p s = s.
Proof.
  induction s as [|c s IH]; [reflexivity|].
  simpl. intros [Hc Hs]%andb_prop. apply negb_true_iff in Hc.
  rewrite rstrip_with_keeps_head by assumption. now rewrite IH.
Qed.

Lemma no_linebreak_rstrip (line : str) :
  no_linebreak line = true -> rstrip_chars [LF] line = line.
Proof.
  intros H. apply rstrip_with_none.
  unfold no_linebreak in H. rewrite forallb_forall in *.
  intros c Hc. specialize (H c Hc). apply negb_true_iff in H.
  apply negb_true_iff. unfold one_of; simpl.
  destruct (N.eqb_spec c LF) as [->|]; [discriminate|reflexivity].
Qed.

Lemma forallb_Forall (A : Type) (f : A -> bool) (l : list A) :
  forallb f l = true -> Forall (fun x => f x = true) l.
Proof. rewrite forallb_forall, Forall_forall. auto. Qed.

(** X9.  No line the loop reads contains a line boundary, so the
    [rstrip("\n")] of the loop body never removes anything. *)
Theorem lines_need_no_rstrip (md_text : str) :
  Forall (fun line => no_linebreak line = true /\ rstrip_chars [LF] line = line)
         (splitlines md_text).
Proof.
  pose proof (forallb_Forall _ _ (splitlines_no_linebreak md_text)) as H.
  eapply Forall_impl; [|exact H].
  intros line Hl. split; [exact Hl | now apply no_linebreak_rstrip].
Qed.

(** X10.  The text of every parsed block is trimmed (stripping it again
    changes nothing) and contains no line boundary. *)
Theorem parsed_texts_trimmed (md_text : str) :
  Forall (fun b => strip (text b) = text b /\ no_linebreak (text b) = true)
         (parse_markdown md_text).
Proof.
  rewrite parse_markdown_lines. apply Forall_map.
  pose proof (forallb_Forall _ _ (splitlines_no_linebreak md_text)) as H.
  eapply Forall_impl; [|exact H].
  intros line Hl. split; [apply line_block_text_trimmed|].
  now apply line_block_text_kept.
Qed.

(** X11.  Splitting the text assembled from the parsed blocks into lines
    gives back the blocks' texts, one line per block: every span covers
    exactly one line of the document. *)
Theorem assembled_text_lines (md_text : str) :
  splitlines (full_text (parse_markdown md_text))
  = map text (parse_markdown md_text).
Proof.
  unfold full_text, join_empty. rewrite text_parts_layout.
  unfold line_of.
  rewrite <- (map_map text (fun t => t ++ [LF])).
  apply splitlines_terminated.
  rewrite parse_markdown_lines, map_map.
  pose proof (splitlines_no_linebreak md_text) as H.
  induction (splitlines md_text) as [|line lines IH]; [reflexivity|].
  simpl in *. apply andb_prop in H as [Hl Hs].
  apply andb_true_intro. split; [|now apply IH].
  now apply line_block_text_kept.
Qed.

(** X12.  A first line that contains no line boundary and is ended by a
    newline is parsed on its own: its block comes first, followed by the
    blocks of the rest of the text. *)
Theorem parse_first_line (line rest : str) :
  no_linebreak line = true ->
  parse_markdown (line ++ LF :: rest) = line_block line :: parse_markdown rest.
Proof.
  intros H. rewrite !parse_markdown_lines. unfold splitlines.
  now rewrite splitlines_from_line.
Qed.

Lemma parse_first_line_witness :
  parse_markdown (lit "# T" ++ LF :: lit "- a")
  = line_block (lit "# T") :: parse_markdown (lit "- a").
Proof. apply parse_first_line. reflexivity. Defined.

Lemma footer_head (raw : str) :
  is_footer raw = true ->
  exists c rest, raw = c :: rest /\ (c = ch "M" \/ c = ch "D").
Proof.
  unfold is_footer. intros [H|H]%orb_prop;
    apply startswith_cons in H as (rest & -> & _); eauto.
Qed.

Lemma footer_excludes (raw : str) :
  is_footer raw = true ->
  is_blank raw = false /\ startswith raw (lit "# ") = false /\
  startswith raw (lit "## ") = false /\ startswith raw (lit "### ") = false /\
  matches re_bullet raw = false.
Proof.
  intros (c & rest & -> & Hc)%footer_head.
  assert (Hsp : is_space c = false) by now destruct Hc as [-> | ->].
  assert (Hm : one_of (lit "-*") c = false) by now destruct Hc as [-> | ->].
  split; [now apply nonspace_not_blank|].
  split; [now destruct Hc as [-> | ->]|].
  split; [now destruct Hc as [-> | ->]|].
  split; [now destruct Hc as [-> | ->]|].
  now apply head_not_bullet.
Qed.

Lemma str_eqb_eq (a b : str) : str_eqb a b = true -> a = b.
Proof. unfold str_eqb. now destruct (list_eq_dec N.eq_dec a b). Qed.

Lemma rule_excludes (raw : str) :
  is_rule raw = true ->
  is_blank raw = false /\ startswith raw (lit "# ") = false /\
  startswith raw (lit "## ") = false /\ startswith raw (lit "### ") = false /\
  matches re_bullet raw = false /\ is_footer raw = false.
Proof.
  unfold is_rule. intros E%str_eqb_eq.
  assert (Hhash : forall pre, startswith raw (ch "#" :: pre) = false).
  { intros pre. destruct (startswith raw (ch "#" :: pre)) eqn:H; [|reflexivity].
    apply startswith_cons in H as (rest & -> & _).
    rewrite strip_head in E by reflexivity. discriminate. }
  split; [unfold is_blank; now rewrite E|].
  split; [apply Hhash|]. split; [apply Hhash|]. split; [apply Hhash|].
  split.
  - destruct (matches re_bullet raw) eqn:H; [|reflexivity].
    apply bullet_shape in H as (m & sp & rest & El & Hm & Hsp).
    unfold strip in E. rewrite El in E.
    assert (Hs : is_space m = false).
    { destruct (is_space m) eqn:Hx; [|reflexivity].
      now rewrite (space_not_marker _ Hx) in Hm. }
    rewrite rstrip_with_keeps_head in E by assumption.
    rewrite rstrip_with_cons in E.
    destruct (is_space sp && forallb is_space rest); [discriminate|].
    injection E as _ -> _. discriminate.
  - destruct (is_footer raw) eqn:H; [|reflexivity].
    apply footer_head in H as (c & rest & -> & Hc).
    rewrite strip_head in E by now destruct Hc as [-> | ->].
    destruct Hc as [-> | ->]; discriminate.
Qed.

(** X13.  Which test a line passes decides its kind, whatever the other
    tests say, except that a checkbox line also passes the bullet test: a
    block is blank exactly when the line is white space only or trims to
    [---], a checkbox exactly when the line matches the checkbox pattern, a
    bullet exactly when it matches the bullet pattern and not the checkbox
    pattern, a footer exactly when it starts with a footer prefix. *)
Theorem kind_by_pattern (line : str) :
  let raw := rstrip_chars [LF] line in
  let k := kind (line_block line) in
  (k = KBlank <-> is_blank raw = true \/ is_rule raw = true) /\
  (k = KCheckbox <-> matches re_checkbox raw = true) /\
  (k = KBullet <->
     matches re_bullet raw = true /\ matches re_checkbox raw = false) /\
  (k = KFooter <-> is_footer raw = true).
Proof.
  cbv zeta. rewrite line_block_eq. cbv zeta.
  set (raw := rstrip_chars [LF] line).
  pose proof (@bullet_not_blank raw) as B1.
  pose proof (@bullet_not_heading raw) as B2.
  pose proof (@checkbox_is_bullet raw) as C1.
  pose proof (@footer_excludes raw) as F.
  pose proof (@rule_excludes raw) as R.
  destruct (is_blank raw); destruct (startswith raw (lit "# "));
    destruct (startswith raw (lit "## ")); destruct (startswith raw (lit "### "));
    destruct (matches re_checkbox raw); destruct (matches re_bullet raw);
    destruct (is_footer raw); destruct (is_rule raw);
    cbn [kind Block_kt]; intuition congruence.
Qed.

(** ** Levels *)

Lemma lstrip_with_length (p : char -> bool) (s : str) :
  (length (lstrip_with p s) <= length s)%nat.
Proof.
  destruct (lstrip_with_split p s) as (a & E & _).
  rewrite E at 2. rewrite length_app. lia.
Qed.

Lemma indent_level_nonneg (raw : str) : (0 <= indent_level raw)%Z.
Proof.
  unfold indent_level, lstrip_chars, len.
  pose proof (lstrip_with_length (one_of (lit " ")) raw).
  apply Z.div_pos; lia.
Qed.

(** X14.  Every parsed block has a level that is not negative; only a
    bullet or a checkbox has a level other than 0, and only a checkbox is
    checked. *)
Theorem parsed_levels_and_flags (md_text : str) :
  Forall (fun b =>
            (0 <= level b)%Z /\
            (level b <> 0%Z -> kind b = KBullet \/ kind b = KCheckbox) /\
            (checked b = true -> kind b = KCheckbox))
         (parse_markdown md_text).
Proof.
  rewrite parse_markdown_lines. apply Forall_map, Forall_forall.
  intros line _. rewrite line_block_eq. cbv zeta.
  pose proof (indent_level_nonneg (rstrip_chars [LF] line)).
  repeat match goal with
         | |- context [if ?b then _ else _] => destruct b
         end; cbn [kind level checked Block_kt];
    repeat split; auto; try lia; try discriminate; congruence.
Qed.

Lemma lstrip_leading_spaces (n : nat) (rest : str) :
  hd_error rest <> Some (ch " ") ->
  lstrip_chars (lit " ") (repeat (ch " ") n ++ rest) = rest.
Proof.
  intros H. unfold lstrip_chars. induction n as [|n IH]; [|exact IH].
  destruct rest as [|c rest]; [reflexivity|].
  cbn [repeat app lstrip_with]. unfold one_of. cbn [lit existsb].
  destruct (N.eqb_spec c (ch " ")) as [->|]; [now elim H | reflexivity].
Qed.

(** X15.  The level of a list item is half the number of its leading
    space characters, rounded down; white space other than spaces is not
    counted. *)
Theorem list_item_level (n : nat) (rest : str) :
  let line := repeat (ch " ") n ++ rest in
  hd_error rest <> Some (ch " ") ->
  no_linebreak line = true ->
  matches re_bullet line = true ->
  level (line_block line) = (Z.of_nat n / 2)%Z /\
  (kind (line_block line) = KBullet \/ kind (line_block line) = KCheckbox).
Proof.
  cbv zeta. intros Hrest Hlb Hb.
  rewrite line_block_eq. cbv zeta. rewrite (no_linebreak_rstrip _ Hlb).
  destruct (bullet_not_heading _ Hb) as (H1 & H2 & H3).
  rewrite (bullet_not_blank _ Hb), H1, H2, H3, Hb.
  assert (E : indent_level (repeat (ch " ") n ++ rest) = (Z.of_nat n / 2)%Z).
  { unfold indent_level. rewrite lstrip_leading_spaces by assumption.
    unfold len. rewrite length_app, repeat_length. f_equal. lia. }
  destruct (matches re_checkbox _); cbn [kind level]; auto.
Qed.

Lemma list_item_level_witness :
  level (line_block (repeat (ch " ") 3 ++ lit "- [x] a")) = (Z.of_nat 3 / 2)%Z /\
  (kind (line_block (repeat (ch " ") 3 ++ lit "- [x] a")) = KBullet \/
   kind (line_block (repeat (ch " ") 3 ++ lit "- [x] a")) = KCheckbox).
Proof.
  apply (@list_item_level 3 (lit "- [x] a")); [discriminate | reflexivity | reflexivity].
Defined.

(** ** Parsing the reconstruction gives the blocks back *)

Lemma line_block_flags (line : str) :
  let b := line_block line in
  (0 <= level b)%Z /\
  (kind b <> KCheckbox -> checked b = false) /\
  (kind b <> KBullet -> kind b <> KCheckbox -> level b = 0%Z).
Proof.
  cbv zeta. rewrite line_block_eq. cbv zeta.
  pose proof (indent_level_nonneg (rstrip_chars [LF] line)).
  repeat match goal with
         | |- context [if ?b then _ else _] => destruct b
         end; cbn [kind level checked Block_kt];
    repeat split; auto; try lia; congruence.
Qed.

Lemma strip_lstrip (t : str) : strip (lstrip_with is_space t) = strip t.
Proof. unfold strip. now rewrite lstrip_with_idem. Qed.

Lemma indent_level_spaces (k : nat) (rest : str) :
  hd_error rest <> Some (ch " ") ->
  indent_level (repeat (ch " ") (2 * k) ++ rest) = Z.of_nat k.
Proof.
  intros H. unfold indent_level. rewrite lstrip_leading_spaces by assumption.
  unfold len. rewrite length_app, repeat_length.
  replace (Z.of_nat (2 * k + length rest) - Z.of_nat (length rest))%Z
    with (Z.of_nat k * 2)%Z by lia.
  now rewrite Z.div_mul.
Qed.

Lemma marker_rest (t : str) :
  bullet_after_indent (lstrip_with is_space (lit "- " ++ t))
    = Some (lstrip_with is_space t) /\
  checkbox_after_indent (lit " xX") (lstrip_with is_space (lit "- [x] " ++ t))
    = Some (lstrip_with is_space t) /\
  checkbox_after_indent (lit " xX") (lstrip_with is_space (lit "- [ ] " ++ t))
    = Some (lstrip_with is_space t).
Proof. repeat split. Qed.

(** The block read back from the line written for a block. *)
Lemma reparse_line_block (b : Block) :
  strip (text b) = text b ->
  (0 <= level b)%Z ->
  (kind b <> KCheckbox -> checked b = false) ->
  (kind b <> KBullet -> kind b <> KCheckbox -> level b = 0%Z) ->
  (kind b = KBlank -> text b = []) ->
  (kind b = KFooter -> is_footer (text b) = true) ->
  (kind b = KP ->
     is_blank (text b) = false /\ matches re_bullet (text b) = false /\
     is_rule (text b) = false) ->
  keeps_kind b = true ->
  line_block (spec_reconstruct_line b) = b.
Proof.
  intros Ht Hlvl Hchk Hlvl0 Hblank Hfooter Hp Hkeep.
  rewrite line_block_eq. cbv zeta. rewrite (reconstructed_raw _ Ht).
  destruct b as [k t lvl chk].
  unfold spec_reconstruct_line, spec_marker, keeps_kind in *.
  cbn [kind text level checked] in *.
  destruct k.
  - (* heading 1 *)
    rewrite (Hchk ltac:(discriminate)), (Hlvl0 ltac:(discriminate) ltac:(discriminate)).
    assert (Hs : startswith (lit "# " ++ t) (lit "# ") = true) by apply startswith_app.
    rewrite (hash_not_blank _ _ Hs), Hs. cbn [lit app skipn]. now rewrite Ht.
  - rewrite (Hchk ltac:(discriminate)), (Hlvl0 ltac:(discriminate) ltac:(discriminate)).
    assert (Hs : startswith (lit "## " ++ t) (lit "## ") = true) by apply startswith_app.
    rewrite (hash_not_blank _ _ Hs), Hs.
    change (startswith (lit "## " ++ t) (lit "# ")) with false.
    cbn [lit app skipn]. now rewrite Ht.
  - rewrite (Hchk ltac:(discriminate)), (Hlvl0 ltac:(discriminate) ltac:(discriminate)).
    assert (Hs : startswith (lit "### " ++ t) (lit "### ") = true) by apply startswith_app.
    rewrite (hash_not_blank _ _ Hs), Hs.
    change (startswith (lit "### " ++ t) (lit "# ")) with false.
    change (startswith (lit "### " ++ t) (lit "## ")) with false.
    cbn [lit app skipn]. now rewrite Ht.
  - (* bullet *)
    rewrite (Hchk ltac:(discriminate)).
    apply negb_true_iff in Hkeep. rewrite <- app_assoc.
    set (r := repeat (ch " ") (2 * Z.to_nat lvl) ++ lit "- " ++ t).
    assert (Hb : matches re_bullet r = true).
    { unfold r. rewrite matches_after_spaces by auto. apply marker_matches. }
    assert (Hc : matches re_checkbox r = false).
    { unfold r. now rewrite matches_after_spaces by auto. }
    destruct (bullet_not_heading _ Hb) as (H1 & H2 & H3).
    rewrite (bullet_not_blank _ Hb), H1, H2, H3, Hc, Hb.
    f_equal.
    + unfold re_sub_start. rewrite re_bullet_match. unfold r.
      rewrite lstrip_spaces.
      destruct (marker_rest t) as (-> & _). rewrite strip_lstrip. exact Ht.
    + unfold r. rewrite indent_level_spaces by discriminate. lia.
  - (* checkbox *)
    rewrite <- app_assoc.
    set (r := repeat (ch " ") (2 * Z.to_nat lvl)
              ++ (if chk then lit "- [x] " else lit "- [ ] ") ++ t).
    destruct (marker_matches t) as (_ & B1 & B2 & C1 & C2).
    assert (Hb : matches re_bullet r = true).
    { unfold r. rewrite matches_after_spaces by auto. now destruct chk. }
    assert (Hc : matches re_checkbox r = true).
    { unfold r. rewrite matches_after_spaces by auto. now destruct chk. }
    destruct (bullet_not_heading _ Hb) as (H1 & H2 & H3).
    rewrite (bullet_not_blank _ Hb), H1, H2, H3, Hc.
    f_equal.
    + unfold re_sub_start. rewrite re_checkbox_match. unfold r.
      rewrite lstrip_spaces. destruct (marker_rest t) as (_ & Ex & Eo).
      destruct chk; [rewrite Ex | rewrite Eo]; rewrite strip_lstrip; exact Ht.
    + unfold r. rewrite indent_level_spaces by now destruct chk. lia.
    + unfold matches. rewrite re_checked_match. unfold r.
      rewrite lstrip_spaces. now destruct chk.
  - (* footer *)
    rewrite (Hchk ltac:(discriminate)), (Hlvl0 ltac:(discriminate) ltac:(discriminate)).
    specialize (Hfooter eq_refl). cbn [app].
    destruct (footer_excludes _ Hfooter) as (F0 & F1 & F2 & F3 & F4).
    rewrite F0, F1, F2, F3, (not_bullet_not_checkbox _ F4), F4, Hfooter.
    unfold Block_kt. now rewrite Ht.
  - (* paragraph *)
    rewrite (Hchk ltac:(discriminate)), (Hlvl0 ltac:(discriminate) ltac:(discriminate)).
    destruct (Hp eq_refl) as (Hb & Hbu & Hr). cbn [app].
    apply negb_true_iff in Hkeep.
    apply orb_false_elim in Hkeep as [Hkeep Hf].
    apply orb_false_elim in Hkeep as [Hkeep H3].
    apply orb_false_elim in Hkeep as [H1 H2].
    rewrite Hb, H1, H2, H3, (not_bullet_not_checkbox _ Hbu), Hbu, Hf, Hr.
    unfold Block_kt. now rewrite Ht.
  - (* blank *)
    rewrite (Hchk ltac:(discriminate)), (Hlvl0 ltac:(discriminate) ltac:(discriminate)).
    rewrite (Hblank eq_refl). reflexivity.
Qed.

(** X16.  When every paragraph's text starts with no heading or footer
    prefix and no bullet's text starts with a checkbox bracket, parsing
    the text written back from the blocks gives the same blocks: kinds,
    texts, levels and checked flags. *)
Theorem reparse_gives_blocks (md_text : str) :
  forallb keeps_kind (parse_markdown md_text) = true ->
  parse_markdown (spec_reconstruct (parse_markdown md_text))
  = parse_markdown md_text.
Proof.
  rewrite (parse_markdown_lines md_text).
  rewrite parse_markdown_lines.
  rewrite reconstructed_lines by apply splitlines_no_linebreak.
  induction (splitlines md_text) as [|line lines IH]; [reflexivity|].
  simpl. intros [Hl Hs]%andb_prop.
  destruct (line_block_flags line) as (L0 & L1 & L2).
  destruct (line_block_facts line) as (F1 & F2 & F3).
  rewrite reparse_line_block, IH; auto using line_block_text_trimmed.
Qed.

Lemma reparse_gives_blocks_witness :
  let md_text :=
    lit "## T" ++ [LF] ++ lit "   - [X] a " ++ [LF] ++ lit "  * b" ++ [LF]
    ++ lit "---" ++ [LF] ++ lit "Duration: 5" ++ [LF] ++ lit " hello" in
  forallb keeps_kind (parse_markdown md_text) = true /\
  parse_markdown (spec_reconstruct (parse_markdown md_text))
  = parse_markdown md_text.
Proof.
  cbv zeta. split; [reflexivity|].
  apply reparse_gives_blocks. reflexivity.
Defined.

(** ** Line endings *)

Lemma splitlines_from_crlf (s : str) :
  forall cur, forallb (fun c => negb (c =? CR)%N) s = true ->
  splitlines_from cur (to_crlf s) = splitlines_from cur s.
Proof.
  induction s as [|c s IH]; intros cur H; [reflexivity|].
  simpl in H. apply andb_prop in H as [Hc Hs]. apply negb_true_iff in Hc.
  unfold to_crlf. cbn [flat_map]. fold (to_crlf s).
  destruct (N.eqb_spec c LF) as [->|Hne].
  - cbn [app splitlines_from]. 
    change (is_linebreak CR) with true. change (is_linebreak LF) with true.
    cbv iota. change (CR =? CR)%N with true. change (LF =? LF)%N with true.
    change (LF =? CR)%N with false. cbv iota.
    now rewrite IH.
  - cbn [app splitlines_from]. rewrite Hc.
    destruct (is_linebreak c); now rewrite IH.
Qed.

(** X17.  Writing the newlines of a text that has no carriage return as
    carriage return, newline changes nothing: the blocks are the same, and
    so is what [markdown_to_google_doc] sends and returns. *)
Theorem crlf_parses_the_same (isalnum : char -> bool)
    (build : option Exception)
    (documents_create : str -> Exception + option str)
    (documents_batchUpdate : str -> list Request -> option Exception)
    (md_text title : str) :
  forallb (fun c => negb (c =? CR)%N) md_text = true ->
  parse_markdown (to_crlf md_text) = parse_markdown md_text /\
  markdown_to_google_doc isalnum build documents_create documents_batchUpdate
    (to_crlf md_text) title
  = markdown_to_google_doc isalnum build documents_create documents_batchUpdate
      md_text title.
Proof.
  intros H.
  assert (E : parse_markdown (to_crlf md_text) = parse_markdown md_text).
  { rewrite !parse_markdown_lines. unfold splitlines.
    now rewrite splitlines_from_crlf. }
  split; [exact E|].
  unfold markdown_to_google_doc. now rewrite E.
Qed.

Lemma crlf_parses_the_same_witness :
  parse_markdown (to_crlf (lit "# T" ++ [LF] ++ lit "- a" ++ [LF]))
  = parse_markdown (lit "# T" ++ [LF] ++ lit "- a" ++ [LF]).
Proof.
  apply (@crlf_parses_the_same ascii_alnum None
           (fun t => inr (Some t)) (fun _ _ => Some (HttpError (lit "quota")))
           (lit "# T" ++ [LF] ++ lit "- a" ++ [LF]) (lit "t")).
  reflexivity.
Defined.

(** ** Lists and footers in the request list *)

Section ListsAndFooters.

Variable isalnum : char -> bool.

Local Open Scope Z_scope.

Lemma spans_from_overlap (c : Z) (blocks : list Block) (s s' : Span) :
  In s (spans_from c blocks) -> In s' (spans_from c blocks) ->
  start s' <= start s < end_ s' -> s = s'.
Proof.
  revert c; induction blocks as [|b bs IH]; intros c; simpl; [easy|].
  pose proof (len_nonneg (text b)) as Hn.
  intros [<-|H1] [<-|H2]; simpl; intros Ho.
  - reflexivity.
  - apply spans_from_lower in H2. lia.
  - apply spans_from_lower in H1. lia.
  - eauto.
Qed.

Lemma style_ops_no_bullets (s : Span) (a z : Z) (r : Request) :
  In r (style_ops s) -> bullets_over a z r = None.
Proof.
  unfold style_ops, style_step; cbv beta iota zeta.
  destruct (kind (block s)); simpl; try easy; now intros [<-|[]].
Qed.

Lemma mention_ops_no_bullets (s : Span) (a z : Z) (r : Request) :
  In r (mention_ops isalnum s) -> bullets_over a z r = None.
Proof.
  rewrite mention_ops_matches, in_map_iff. now intros (m & <- & _).
Qed.

Lemma list_ops_bullets (s : Span) (a z : Z) (p : str) (r : Request) :
  In r (list_ops s) -> bullets_over a z r = Some p ->
  a = start s /\ list_preset (kind (block s)) = Some p.
Proof.
  unfold list_ops, list_step; cbv beta iota zeta.
  destruct (kind (block s)); simpl; try easy;
    destruct (level (block s) >? 0); simpl;
    intros H; repeat destruct H as [<-|H]; try easy; simpl;
    destruct (start s =? a) eqn:Ea; simpl; try easy;
    destruct (end_ s =? z); simpl; try easy;
    intros [= <-]; (split; [lia|reflexivity]).
Qed.

(** X18.  The request list makes a list of the range of a block's span
    exactly when the block is a bullet or a checkbox, with the preset
    BULLET_DISC_CIRCLE_SQUARE for a bullet and BULLET_CHECKBOX for a
    checkbox. *)
Theorem bullets_iff_list_item (blocks : list Block) (s : Span) (p : str) :
  In s (spans (layout blocks)) ->
  (exists r, In r (build_requests isalnum blocks) /\
             bullets_over (start s) (end_ s) r = Some p)
  <-> list_preset (kind (block s)) = Some p.
Proof.
  intros Hs. split.
  - intros (r & Hr & Hn). apply in_build_requests in Hr.
    destruct Hr as [->|(s' & Hs' & [H|[H|H]])].
    + discriminate.
    + now rewrite (@style_ops_no_bullets s' (start s) (end_ s) r H) in Hn.
    + destruct (@list_ops_bullets s' _ _ p r H Hn) as (Ea & Hk).
      rewrite spans_layout in Hs, Hs'.
      assert (s = s') by (eapply spans_from_start_inj; eauto).
      now subst s'.
    + now rewrite (@mention_ops_no_bullets s' (start s) (end_ s) r H) in Hn.
  - intros Hk.
    exists (createParagraphBullets (mkRange (start s) (end_ s)) p). split.
    + apply in_build_requests. right. exists s. split; [assumption|].
      right; left. unfold list_ops, list_step. cbv beta iota zeta.
      destruct (kind (block s)); simpl in Hk; try discriminate;
        injection Hk as <-; destruct (level (block s) >? 0); now left.
    + simpl. now rewrite !Z.eqb_refl.
Qed.

Lemma style_ops_text_style (s : Span) (a z : Z) (st : TextStyle) (r : Request) :
  In r (style_ops s) -> text_style_over a z r = Some st ->
  a = start s /\ kind (block s) = KFooter /\
  st = mkTextStyle None (Some true) (Some (mkDimension 10 (lit "PT")))
         (Some footer_rgb).
Proof.
  unfold style_ops, style_step; cbv beta iota zeta.
  destruct (kind (block s)); simpl; try easy;
    intros [<-|[]]; simpl; try easy;
    destruct (start s =? a) eqn:Ea; simpl; try easy;
    destruct (end_ s =? z); simpl; try easy;
    intros [= <-]; (split; [lia|split; reflexivity]).
Qed.

Lemma list_ops_no_text_style (s : Span) (a z : Z) (r : Request) :
  In r (list_ops s) -> text_style_over a z r = None.
Proof.
  unfold list_ops, list_step; cbv beta iota zeta.
  destruct (kind (block s)); simpl; try easy;
    destruct (level (block s) >? 0); simpl;
    intros H; repeat destruct H as [<-|H]; easy.
Qed.

(** X19.  The request list has a text style over exactly the range of a
    block's span only for a footer, and that style is italic, size 10 and
    grey, with no bold key; the bold request of a mention never covers a
    whole span. *)
Theorem span_text_style_iff_footer (blocks : list Block) (s : Span) (st : TextStyle) :
  In s (spans (layout blocks)) ->
  (exists r, In r (build_requests isalnum blocks) /\
             text_style_over (start s) (end_ s) r = Some st)
  <-> kind (block s) = KFooter /\
      st = mkTextStyle None (Some true) (Some (mkDimension 10 (lit "PT")))
             (Some footer_rgb).
Proof.
  intros Hs. split.
  - intros (r & Hr & Hn). apply in_build_requests in Hr.
    destruct Hr as [->|(s' & Hs' & [H|[H|H]])].
    + discriminate.
    + destruct (@style_ops_text_style s' _ _ st r H Hn) as (Ea & Hk & Hst).
      rewrite spans_layout in Hs, Hs'.
      assert (s = s') by (eapply spans_from_start_inj; eauto).
      now subst s'.
    + now rewrite (@list_ops_no_text_style s' (start s) (end_ s) r H) in Hn.
    + exfalso.
      assert (Hrg : request_range r = Some (start s, end_ s)).
      { destruct r as [| |rg st' f|]; simpl in Hn |- *; try discriminate.
        destruct (startIndex rg =? start s) eqn:E1; simpl in Hn; [|discriminate].
        destruct (endIndex rg =? end_ s) eqn:E2; [|discriminate].
        apply Z.eqb_eq in E1, E2. now rewrite E1, E2. }
      destruct (mention_ops_range isalnum _ _ H Hrg) as (H1 & H2 & H3).
      rewrite spans_layout in Hs, Hs'.
      pose proof (spans_from_width _ _ _ Hs) as Hw.
      pose proof (spans_from_width _ _ _ Hs') as Hw'.
      pose proof (len_nonneg (text (block s))) as Hn0.
      assert (s = s') by (eapply spans_from_overlap; eauto; lia).
      subst s'. lia.
  - intros (Hk & ->).
    exists (_text_style_request (start s) (end_ s) None (Some true) (Some 10)
              (Some footer_rgb)). split.
    + apply in_build_requests. right. exists s. split; [assumption|].
      left. unfold style_ops, style_step. cbv beta iota zeta.
      rewrite Hk. now left.
    + simpl. now rewrite !Z.eqb_refl.
Qed.

End ListsAndFooters.

Lemma bullets_iff_list_item_witness :
  exists r, In r (build_requests ascii_alnum sample_blocks) /\
            bullets_over 1 13 r = Some (lit "BULLET_DISC_CIRCLE_SQUARE").
Proof.
  apply (bullets_iff_list_item ascii_alnum sample_blocks
           (mkSpan (mkBlock KBullet (lit "nested @bob") 1 false) 1 13)
           (lit "BULLET_DISC_CIRCLE_SQUARE")).
  - left; reflexivity.
  - reflexivity.
Defined.

Lemma span_text_style_iff_footer_witness :
  exists r,
    In r (build_requests ascii_alnum [Block_kt KFooter (lit "Duration: 5")]) /\
    text_style_over 1 13 r
    = Some (mkTextStyle None (Some true) (Some (mkDimension 10 (lit "PT")))
              (Some footer_rgb)).
Proof.
  apply (span_text_style_iff_footer ascii_alnum
           [Block_kt KFooter (lit "Duration: 5")]
           (mkSpan (Block_kt KFooter (lit "Duration: 5")) 1 13)).
  - left; reflexivity.
  - split; reflexivity.
Defined.

(** ** Every mention is found *)

Lemma firstn_length_app (A : Type) (a b : list A) :
  firstn (length a) (a ++ b) = a.
Proof. induction a as [|x a IH]; simpl; [now destruct b | now rewrite IH]. Qed.

Lemma lstrip_with_fix (p : char -> bool) (s : str) :
  match s with [] => True | c :: _ => p c = false end ->
  lstrip_with p s = s.
Proof. destruct s as [|c s]; [reflexivity|]. simpl. now intros ->. Qed.

Section MentionsFound.

Variable isalnum : char -> bool.
Hypothesis at_no_alnum : isalnum (ch "@") = false.

Local Open Scope Z_scope.

Lemma at_no_word : is_word isalnum (ch "@") = false.
Proof. unfold is_word. now rewrite at_no_alnum. Qed.

(** The search reaches every occurrence: the characters it skips are
    word characters of the match before, and the [@] is none. *)
Lemma finditer_from_complete (w rest : str) :
  w <> [] -> forallb (is_word isalnum) w = true ->
  match rest with [] => True | c :: _ => is_word isalnum c = false end ->
  forall (pre : str) (pos : Z) (skip : nat),
  forallb (is_word isalnum) (firstn skip (pre ++ ch "@" :: w ++ rest)) = true ->
  In (pos + len pre, pos + len pre + 1 + len w)
     (finditer_from (MENTION_RE isalnum) pos skip (pre ++ ch "@" :: w ++ rest)).
Proof.
  intros Hne Hw Hrest. induction pre as [|c pre IH]; intros pos skip Hskip.
  - cbn [app] in *. destruct skip as [|k].
    + cbn [finditer_from]. rewrite mention_match.
      destruct w as [|c2 w']; [now elim Hne|]. cbn [app].
      simpl in Hw. apply andb_prop in Hw as [Hc2 Hw'].
      rewrite N.eqb_refl, Hc2. cbn [andb].
      rewrite lstrip_with_app, Hw', (lstrip_with_fix _ _ Hrest).
      left. f_equal; unfold len; simpl length; rewrite ?length_app; lia.
    + cbn [firstn forallb] in Hskip. now rewrite at_no_word in Hskip.
  - cbn [app] in *.
    replace (pos + len (c :: pre)) with (pos + 1 + len pre)
      by (unfold len; simpl length; lia).
    specialize (IH (pos + 1)).
    remember (pre ++ ch "@" :: w ++ rest) as X eqn:HX.
    destruct skip as [|k].
    + cbn [finditer_from]. rewrite mention_match.
      destruct X as [|c2 r0]; [now apply (IH 0%nat)|].
      destruct ((c =? ch "@")%N && is_word isalnum c2)%bool eqn:Hc;
        [|now apply (IH 0%nat)].
      right. apply IH.
      apply andb_prop in Hc as [_ Hc2].
      destruct (lstrip_with_split (is_word isalnum) r0) as (wp & E & Hwp).
      assert (En : (length (c :: c2 :: r0)
                    - length (lstrip_with (is_word isalnum) r0) - 1)%nat
                   = S (length wp)).
      { rewrite E at 1. simpl length. rewrite length_app. lia. }
      rewrite En. rewrite E. cbn [firstn]. rewrite firstn_length_app.
      simpl. now rewrite Hc2, Hwp.
    + cbn [finditer_from]. apply IH.
      cbn [firstn forallb] in Hskip. now apply andb_prop in Hskip as [_ Hskip].
Qed.

Lemma finditer_from_NoDup (s : str) :
  forall (pos : Z) (skip : nat),
  NoDup (finditer_from (MENTION_RE isalnum) pos skip s).
Proof.
  induction s as [|c s IH]; intros pos skip.
  - simpl. destruct skip; constructor.
  - cbn [finditer_from]. destruct skip as [|k]; [|apply IH].
    destruct (re_match (MENTION_RE isalnum) (c :: s)); [|apply IH].
    cbv zeta. constructor; [|apply IH].
    intros H. apply finditer_from_mention in H
      as (pre & w & rest & _ & _ & Ha & _).
    pose proof (len_nonneg pre). lia.
Qed.

End MentionsFound.

Section MentionClaim.

Variable isalnum : char -> bool.

Local Open Scope Z_scope.

(** C7.  The bold requests of the request list are, span by span and
    whatever the block's kind, one request per match of [@\w+] in the
    block's text, over [start + m.start(), start + m.end()).  No match is
    listed twice, and an empty text has none, so a span with an empty text
    has no bold request.  The matches are the occurrences of the pattern
    and only them: with [@] no alphanumeric character, as in the table of
    [str.isalnum], [(a, z)] is a match exactly when the text has an [@] at
    [a] followed by one or more word characters up to [z] and no word
    character at [z]. *)
Theorem mention_bold_requests (blocks : list Block) :
  filter is_bold (build_requests isalnum blocks) =
    flat_map
      (fun s => map (fun m => bold_request (start s + fst m) (start s + snd m))
                    (finditer (MENTION_RE isalnum) (text (block s))))
      (spans (layout blocks)) /\
  finditer (MENTION_RE isalnum) [] = [] /\
  (forall t, NoDup (finditer (MENTION_RE isalnum) t)) /\
  (isalnum (ch "@") = false ->
   forall t a z,
     In (a, z) (finditer (MENTION_RE isalnum) t) <-> mention_at isalnum t a z).
Proof.
  split; [|split; [reflexivity|split]].
  - rewrite spans_layout, build_requests_groups.
    pose proof (forallb_flat_map is_block_style style_ops (spans_from 1 blocks)
                  style_ops_group) as Hs.
    pose proof (forallb_flat_map is_list_op list_ops (spans_from 1 blocks)
                  list_ops_group) as Hl.
    pose proof (forallb_flat_map is_bold (mention_ops isalnum) (spans_from 1 blocks)
                  (mention_ops_group isalnum)) as Hm.
    simpl. rewrite !filter_app.
    rewrite (filter_none is_block_style is_bold _ block_style_not_bold Hs).
    rewrite (filter_none is_list_op is_bold _ list_op_not_bold Hl).
    rewrite (filter_all is_bold _ Hm). simpl.
    apply flat_map_ext. intros s. apply mention_ops_matches.
  - intros t. apply finditer_from_NoDup.
  - intros Hat t a z. split.
    + intros H. apply finditer_from_mention in H
        as (pre & w & rest & E & _ & Ha & Hz & Hne & Hw & Hr).
      exists pre, w, rest. repeat split; try assumption; try lia.
      rewrite <- Hr. apply lstrip_with_head.
    + intros (pre & w & rest & -> & -> & -> & Hne & Hw & Hr).
      pose proof (@finditer_from_complete isalnum Hat w rest Hne Hw Hr pre 0 0%nat
                    eq_refl) as H.
      now rewrite !Z.add_0_l in H.
Qed.

End MentionClaim.

Lemma mention_bold_requests_witness :
  In (5, 11)%Z (finditer (MENTION_RE ascii_alnum) (lit "Ping @alice and @bob_2 please")).
Proof.
  destruct (mention_bold_requests ascii_alnum sample_blocks) as (_ & _ & _ & H).
  apply (H eq_refl).
  exists (lit "Ping "), (lit "alice"), (lit " and @bob_2 please").
  repeat split. discriminate.
Defined.

(** ** Reparsing the text written back with the original markers *)

(** C9, as stated, fails: an indented line that reads ["# Title"] after
    trimming is a paragraph, which has no marker to put back, and its text
    alone is a heading. *)
Lemma reclassification_changes_kinds :
  map kind (parse_markdown (lit "  # Title")) = [KP] /\
  map kind (parse_markdown (spec_rewrite (lit "  # Title"))) = [KH1] /\
  map kind (parse_markdown (spec_rewrite (lit "  # Title")))
    <> map kind (parse_markdown (lit "  # Title")).
Proof. repeat split. discriminate. Qed.

Lemma firstn_prefix (A : Type) (P L : list A) :
  firstn (length (P ++ L) - length L) (P ++ L) = P.
Proof.
  replace (length (P ++ L) - length L)%nat with (length P)
    by (rewrite length_app; lia).
  apply firstn_length_app.
Qed.

Lemma firstn_kept (q : char -> bool) (n : nat) (s : str) :
  forallb q s = true -> forallb q (firstn n s) = true.
Proof.
  revert s; induction n as [|n IH]; intros s H; [reflexivity|].
  destruct s as [|c s]; [reflexivity|].
  simpl in *. apply andb_prop in H as [Hc H]. now rewrite Hc, IH.
Qed.

(** What the bullet pattern matches in a line: the line is the matched
    text [P] followed by [L], which [re.sub] leaves; whatever follows [P],
    the pattern matches. *)
Lemma bullet_rewrite (raw : str) :
  matches re_bullet raw = true ->
  exists P L,
    raw = P ++ L /\ re_sub_start re_bullet raw = L /\
    lstrip_with is_space L = L /\
    forall t, matches re_bullet (P ++ t) = true.
Proof.
  intros (m & sp & rest0 & E & Hm & Hsp)%bullet_shape.
  destruct (lstrip_with_split is_space raw) as (ws & Eraw & Hws).
  destruct (lstrip_with_split is_space rest0) as (w2 & Erest & _).
  assert (Hs : is_space m = false).
  { destruct (is_space m) eqn:Hx; [|reflexivity].
    now rewrite (space_not_marker _ Hx) in Hm. }
  exists (ws ++ m :: sp :: w2), (lstrip_with is_space rest0).
  split; [|split; [|split]].
  - rewrite Eraw at 1. rewrite E, <- app_assoc. cbn [app]. now rewrite <- Erest.
  - unfold re_sub_start. rewrite re_bullet_match, E.
    unfold bullet_after_indent. now rewrite Hm, Hsp.
  - apply lstrip_with_idem.
  - intros t. unfold matches. rewrite re_bullet_match, <- app_assoc.
    rewrite lstrip_with_app, Hws. cbn [app lstrip_with]. rewrite Hs.
    unfold bullet_after_indent. now rewrite Hm, Hsp.
Qed.

Lemma checkbox_rewrite (raw : str) :
  matches re_checkbox raw = true ->
  exists P L,
    raw = P ++ L /\ re_sub_start re_checkbox raw = L /\
    lstrip_with is_space L = L /\
    forall t, matches re_checkbox (P ++ t) = true.
Proof.
  intros (sp & c & sp2 & rest0 & E & Hsp & Hc & Hsp2)%checkbox_matches_shape.
  destruct (lstrip_with_split is_space raw) as (ws & Eraw & Hws).
  destruct (lstrip_with_split is_space rest0) as (w2 & Erest & _).
  exists (ws ++ ch "-" :: sp :: ch "[" :: c :: ch "]" :: sp2 :: w2),
         (lstrip_with is_space rest0).
  split; [|split; [|split]].
  - rewrite Eraw at 1. rewrite E, <- app_assoc. cbn [app]. now rewrite <- Erest.
  - unfold re_sub_start. rewrite re_checkbox_match, E.
    unfold checkbox_after_indent. now rewrite !N.eqb_refl, Hsp, Hc, Hsp2.
  - apply lstrip_with_idem.
  - intros t. unfold matches. rewrite re_checkbox_match, <- app_assoc.
    rewrite lstrip_with_app, Hws. cbn [app lstrip_with].
    change (is_space (ch "-")) with false. cbv iota.
    unfold checkbox_after_indent. now rewrite !N.eqb_refl, Hsp, Hc, Hsp2.
Qed.

(** A line the checkbox pattern matches is still matched when text is
    added at its end. *)
Lemma checkbox_extends (u w : str) :
  matches re_checkbox u = true -> matches re_checkbox (u ++ w) = true.
Proof.
  intros (P & L & -> & _ & _ & H)%checkbox_rewrite.
  rewrite <- app_assoc. apply H.
Qed.

(** The test that a line written back passes first is the one of the
    block it was written from. *)
Lemma rewrite_line_first_match (line : str) :
  no_linebreak line = true ->
  paragraph_keeps_kind (line_block line) = true ->
  first_match (spec_rewrite_line line) = Some (kind (line_block line)).
Proof.
  intros Hlb Hk. pose proof (no_linebreak_rstrip _ Hlb) as Eraw.
  unfold spec_rewrite_line, spec_original_marker. cbv zeta.
  rewrite line_block_eq in *. cbv zeta in *. rewrite Eraw in *.
  destruct (is_blank line) eqn:B; [reflexivity|].
  destruct (startswith line (lit "# ")) eqn:H1.
  { cbn [kind text Block_kt].
    apply startswith_split in H1 as (rest & ->).
    change (first_match (lit "# " ++ strip rest) = Some KH1).
    apply first_match_heading. auto. }
  destruct (startswith line (lit "## ")) eqn:H2.
  { cbn [kind text Block_kt].
    apply startswith_split in H2 as (rest & ->).
    change (first_match (lit "## " ++ strip rest) = Some KH2).
    apply first_match_heading. auto. }
  destruct (startswith line (lit "### ")) eqn:H3.
  { cbn [kind text Block_kt].
    apply startswith_split in H3 as (rest & ->).
    change (first_match (lit "### " ++ strip rest) = Some KH3).
    apply first_match_heading. auto. }
  destruct (matches re_checkbox line) eqn:Hc.
  { cbn [kind text].
    destruct (checkbox_rewrite _ Hc) as (P & L & E & Esub & EL & HP).
    rewrite Esub. rewrite E at 1 2. rewrite firstn_prefix.
    rewrite first_match_list by (apply checkbox_is_bullet, HP).
    now rewrite HP. }
  destruct (matches re_bullet line) eqn:Hb.
  { cbn [kind text].
    destruct (bullet_rewrite _ Hb) as (P & L & E & Esub & EL & HP).
    rewrite Esub. rewrite E at 1 2. rewrite firstn_prefix.
    rewrite first_match_list by apply HP.
    destruct (matches re_checkbox (P ++ strip L)) eqn:Hc'; [|reflexivity].
    exfalso.
    destruct (rstrip_with_split is_space L) as (w & Ew & _).
    apply (checkbox_extends _ w) in Hc'.
    unfold strip in Hc'. rewrite EL, <- app_assoc, <- Ew, <- E in Hc'.
    congruence. }
  destruct (is_footer line) eqn:F.
  { apply (reconstructed_first_match (Block_kt KFooter (strip line)));
      cbn [kind text Block_kt]; try discriminate; [|reflexivity].
    intros _. now apply footer_strip. }
  destruct (is_rule line) eqn:R; [reflexivity|].
  apply (reconstructed_first_match (Block_kt KP (strip line)));
    cbn [kind text Block_kt]; try discriminate; [|exact Hk].
  intros _. split; [|split].
  - unfold is_blank in *. now rewrite strip_idem.
  - destruct (matches re_bullet (strip line)) eqn:E; [|reflexivity].
    apply bullet_strip in E. congruence.
  - unfold is_rule in *. now rewrite strip_idem.
Qed.

Lemma rewrite_line_no_linebreak (line : str) :
  no_linebreak line = true -> no_linebreak (spec_rewrite_line line) = true.
Proof.
  intros H. unfold no_linebreak, spec_rewrite_line.
  rewrite forallb_app. apply andb_true_intro. split.
  - unfold spec_original_marker. cbv zeta.
    rewrite (no_linebreak_rstrip _ H).
    destruct (kind (line_block line)); try reflexivity;
      now apply firstn_kept.
  - now apply line_block_text_kept.
Qed.

Lemma rewritten_lines (md_text : str) :
  splitlines (spec_rewrite md_text) = map spec_rewrite_line (splitlines md_text).
Proof.
  unfold spec_rewrite.
  rewrite <- (map_map spec_rewrite_line (fun l => l ++ [LF])).
  apply splitlines_terminated.
  pose proof (splitlines_no_linebreak md_text) as H.
  induction (splitlines md_text) as [|l lines IH]; [reflexivity|].
  simpl in *. apply andb_prop in H as [Hl Hs].
  now rewrite rewrite_line_no_linebreak, IH.
Qed.

(** C9, amended.  When no paragraph's text starts with a heading or footer
    prefix, parsing the text written back from the blocks, each with the
    marker its line had in front of its text and ended by a newline, gives
    the same kinds in the same order: blank, heading, bullet, checkbox and
    footer blocks always come back with their kind. *)
Theorem reclassification_stable (md_text : str) :
  forallb paragraph_keeps_kind (parse_markdown md_text) = true ->
  map kind (parse_markdown (spec_rewrite md_text))
  = map kind (parse_markdown md_text).
Proof.
  rewrite (parse_markdown_lines md_text), parse_markdown_lines, rewritten_lines.
  pose proof (splitlines_no_linebreak md_text) as Hlb.
  induction (splitlines md_text) as [|line lines IH]; [reflexivity|].
  simpl in *. apply andb_prop in Hlb as [Hl Hs].
  intros [Hk Hks]%andb_prop.
  rewrite IH by assumption. f_equal.
  pose proof (first_match_kind (spec_rewrite_line line)) as H.
  rewrite (no_linebreak_rstrip _ (rewrite_line_no_linebreak _ Hl)) in H.
  rewrite rewrite_line_first_match in H by assumption.
  now injection H.
Qed.

Lemma reclassification_stable_witness :
  let md_text :=
    lit "# T" ++ [LF] ++ lit "  - [X] a" ++ [LF] ++ lit "* [ ] b" ++ [LF]
    ++ lit "-  [ ] c" ++ [LF] ++ [LF] ++ lit "Duration: 5" ++ [LF] ++ lit " hello" in
  forallb paragraph_keeps_kind (parse_markdown md_text) = true /\
  map kind (parse_markdown (spec_rewrite md_text))
  = map kind (parse_markdown md_text).
Proof.
  cbv zeta. split; [reflexivity|].
  apply reclassification_stable. reflexivity.
Defined.
